(** * nnu: walk-back datasets and stochastic sampling layers

    A shallow embedding of [nnu/nn/autoencoder/DAE.py] and
    [nnu/nn/module/sample.py].

    - Python integers are [Z]; [//] and [%] are the floor division and
      modulus of [Z] (sign of the divisor), raising [ZeroDivisionError] on a
      zero divisor.
    - Python exceptions are the [Raise] branch of [result].
    - Indexing a Python list or the leading axis of a tensor accepts a
      negative index counted from the end and raises [IndexError] outside
      [-len, len).
    - Tensor entries of the sampling layers are real numbers: the tensor
      operations are those of exact arithmetic.  Where the rounding of
      single precision decides a statement, the source line is also given
      over binary32 ([Sample.straight_through_f32]). *)

From Stdlib Require Import ZArith List Lia Bool Reals Lra SpecFloat.
Import ListNotations.

Set Implicit Arguments.

(** ** Exceptions and results *)

Inductive exn : Set :=
| IndexError
| ValueError
| AssertionError
| RuntimeError
| ZeroDivisionError.

Inductive result (A : Type) : Type :=
| Ok (a : A)
| Raise (e : exn).

Arguments Ok {A} a.
Arguments Raise {A} e.

Definition bind {A B : Type} (r : result A) (k : A -> result B) : result B :=
  match r with
  | Ok a => k a
  | Raise e => Raise e
  end.

Definition map_result {A B : Type} (f : A -> B) (r : result A) : result B :=
  match r with
  | Ok a => Ok (f a)
  | Raise e => Raise e
  end.

Declare Scope py_scope.
Delimit Scope py_scope with py.
Notation "x <- r ;; k" := (bind r (fun x => k))
  (at level 100, r at next level, right associativity) : py_scope.
Notation "' p <- r ;; k" := (bind r (fun p => k))
  (at level 100, p pattern, r at next level, right associativity) : py_scope.
Open Scope py_scope.

(** ** Python built-ins used by the sources *)

Module Py.

Open Scope Z_scope.

(** [a // b] *)
Definition floordiv (a b : Z) : result Z :=
  if b =? 0 then Raise ZeroDivisionError else Ok (a / b).

(** [a % b] *)
Definition modulo (a b : Z) : result Z :=
  if b =? 0 then Raise ZeroDivisionError else Ok (a mod b).

(** [l[i]] on a list, and on the leading axis of a tensor. *)
Definition getitem {A : Type} (l : list A) (i : Z) : result A :=
  let n := Z.of_nat (length l) in
  let j := if i <? 0 then i + n else i in
  if (j <? 0) || (n <=? j) then Raise IndexError
  else match nth_error l (Z.to_nat j) with
       | Some a => Ok a
       | None => Raise IndexError
       end.

(** [range(n)] has [max 0 n] elements. *)
Definition range_len (n : Z) : nat := Z.to_nat n.

End Py.

(** ** Sequential batching

    [DataLoader(x, batch_size, shuffle=False)] of torch (with its default
    [drop_last=False]) yields the samples in order, [batch_size] at a time,
    the last batch holding what remains.  It rejects a batch size that is not
    positive with [ValueError]. *)

Section Batching.

Variable A : Type.

Fixpoint chunks_fuel (fuel bs : nat) (l : list A) : list (list A) :=
  match fuel with
  | O => []
  | S fuel' =>
      match l with
      | [] => []
      | _ :: _ => firstn bs l :: chunks_fuel fuel' bs (skipn bs l)
      end
  end.

(** One unit of fuel per sample is always enough, see [chunks_concat]. *)
Definition chunks (bs : nat) (l : list A) : list (list A) :=
  chunks_fuel (length l) bs l.

Definition DataLoader (x : list A) (batch_size : Z) : result (list (list A)) :=
  if (batch_size <=? 0)%Z then Raise ValueError
  else Ok (chunks (Z.to_nat batch_size) x).

End Batching.

(** ** DAE.py *)

Module DAE.

Open Scope Z_scope.

(** *** [chain] *)

Section Chain.

(** A tensor is opaque to [chain]; [model] and [corrupt] are the two
    callables it receives. *)
Variable X : Type.
Variables model corrupt : X -> X.

(** The body of [for i in range(k)] inside the generator: the tensors it
    yields, [c] being the last one yielded before the loop. *)
Fixpoint chain_loop (k : nat) (c : X) : list X :=
  match k with
  | O => []
  | S k' =>
      let x := model c in
      let c' := corrupt x in
      c' :: chain_loop k' c'
  end.

(** [chain(x, model, corrupt, n)]: the list of what [_chain(x)] yields. *)
Definition chain (x : X) (n : Z) : list X :=
  let c := corrupt x in
  c :: chain_loop (Py.range_len (n - 1)) c.

End Chain.

(** *** [WalkbackDataset] *)

Inductive device : Set :=
| cpu
| cuda (k : nat).

Section Walkback.

(** A sample of the base collection.  A batch, like every tensor stored by
    the dataset, is indexed along its leading axis: it is the list of its
    samples. *)
Variable T : Type.

Local Abbreviation tensor := (list T).

(** [t.to(d, non_blocking=True)] changes where a tensor is stored, not what
    it holds. *)
Definition to (t : tensor) (d : device) : tensor := t.

(** The denoising model: a callable together with the device of its first
    parameter, [next(model.parameters()).device]. *)
Record Model : Type := {
  call : tensor -> tensor;
  parameters_device : device
}.

Record WalkbackDataset : Type := {
  model : Model;
  corrupt : tensor -> tensor;
  n : Z;
  batch_size : Z;
  data : list (tensor * list tensor);
  dev : device;
  model_device : device
}.

(** The [for] loop of [WalkbackDataset._chain]. *)
Fixpoint walkback_loop (m : Model) (cor : tensor -> tensor)
    (k : nat) (c : tensor) : list tensor :=
  match k with
  | O => []
  | S k' =>
      let x := call m c in
      let c' := cor x in
      c' :: walkback_loop m cor k' c'
  end.

(** [self._chain(x)], as the list of the tensors it yields; it reads
    [self.model], [self.corrupt], [self.n] and [self.model_device]. *)
Definition _chain (m : Model) (cor : tensor -> tensor) (n_total : Z)
    (mdev : device) (x : tensor) : list tensor :=
  x ::
  (let x := to x mdev in
   let c := cor x in
   c :: walkback_loop m cor (Py.range_len (n_total - 2)) c).

(** [WalkbackDataset.__init__(x, model, corrupt, n, batch_size, device)].
    The base collection [x] is the list of its samples, whether it came as a
    tensor (wrapped in a [TensorDataset]) or as a dataset of one-field
    samples; the loop runs under [torch.no_grad()], which changes no
    value. *)
Definition __init__ (x : list T) (m : Model) (cor : tensor -> tensor)
    (n0 batch_size0 : Z) (d : device) : result WalkbackDataset :=
  let n_total := 2 + n0 in
  let mdev := parameters_device m in
  loader <- DataLoader x batch_size0 ;;
  let records :=
    map (fun batch_x =>
           let batch_x := to batch_x d in
           let chain := map (fun c => to c d) (_chain m cor n_total mdev batch_x) in
           (batch_x, chain))
        loader in
  Ok {| model := m; corrupt := cor; n := n_total; batch_size := batch_size0;
        data := records; dev := d; model_device := mdev |}.

(** [WalkbackDataset.__len__]. *)
Definition __len__ (self : WalkbackDataset) : result Z :=
  last_record <- Py.getitem (data self) (-1) ;;
  Ok ((Z.of_nat (length (data self)) - 1) * batch_size self * n self
      + n self * Z.of_nat (length (fst last_record))).

(** The built-in [len(self)]: it refuses a negative [__len__]. *)
Definition len (self : WalkbackDataset) : result Z :=
  l <- __len__ self ;;
  if l <? 0 then Raise ValueError else Ok l.

(** [WalkbackDataset.__getitem__].  The guard [0 > i > len(self)] is the
    chained comparison [0 > i and i > len(self)]: [len(self)] is evaluated
    only when [0 > i]. *)
Definition __getitem__ (self : WalkbackDataset) (i : Z) : result (T * T) :=
  out_of_range <-
    (if 0 >? i then (l <- len self ;; Ok (i >? l)) else Ok false) ;;
  if (out_of_range : bool) then Raise IndexError
  else
    let bsz := batch_size self in
    b_index <- Py.floordiv i (bsz * n self) ;;
    i <- Py.modulo i (bsz * n self) ;;
    record <- Py.getitem (data self) b_index ;;
    let bsz := Z.of_nat (length (fst record)) in
    c_index <- Py.floordiv i bsz ;;
    e_index <- Py.modulo i bsz ;;
    '(y, x) <- Py.getitem (data self) b_index ;;
    x <- Py.getitem x c_index ;;
    x <- Py.getitem x e_index ;;
    y <- Py.getitem y e_index ;;
    Ok (x, y).

(** Exhaustive in-order enumeration of the stored pairs: over the batches,
    then over the chain positions, then over the elements of the batch. *)
Definition pair_at (y c : tensor) (e : nat) : list (T * T) :=
  match nth_error c e, nth_error y e with
  | Some xe, Some ye => [(xe, ye)]
  | _, _ => []
  end.

Definition enumerate_record (record : tensor * list tensor) : list (T * T) :=
  let (y, chain) := record in
  flat_map (fun c => flat_map (pair_at y c) (seq 0 (length y))) chain.

Definition enumerate (self : WalkbackDataset) : list (T * T) :=
  flat_map enumerate_record (data self).

(** What the constructor establishes for a non-empty base collection, a
    non-negative walk-back depth and callables that keep the batch size:
    every chain has [n] tensors as long as their batch, every batch but the
    last is full, and the last one is not empty. *)
Definition record_ok (n_total : Z) (record : tensor * list tensor) : Prop :=
  Z.of_nat (length (snd record)) = n_total /\
  Forall (fun c => length c = length (fst record)) (snd record).

Definition invariant (self : WalkbackDataset) : Prop :=
  0 < batch_size self /\
  0 < n self /\
  Forall (record_ok (n self)) (data self) /\
  exists full last_record,
    data self = full ++ [last_record] /\
    Forall (fun r => Z.of_nat (length (fst r)) = batch_size self) full /\
    0 < Z.of_nat (length (fst last_record)) <= batch_size self.

End Walkback.

End DAE.

(** ** sample.py *)

Module Sample.

(** *** Tensors

    A tensor is its shape and its entries in row-major order, as a
    contiguous torch tensor stores them: [reshape] and [view] keep the
    entries and change the shape. *)

Record Tensor : Type := {
  shape : list Z;
  data : list R
}.

Definition numel_of (shp : list Z) : Z := fold_right Z.mul 1%Z shp.

Definition numel (t : Tensor) : Z := numel_of (shape t).

(** The tensors torch can build: no negative dimension, as many entries as
    the shape announces. *)
Definition wf (t : Tensor) : Prop :=
  Forall (fun d => 0 <= d)%Z (shape t) /\
  Z.of_nat (length (data t)) = numel t.

Definition shape_eqb (s1 s2 : list Z) : bool :=
  if list_eq_dec Z.eq_dec s1 s2 then true else false.

(** [t.reshape(-1, d)]: the leading size is inferred; torch refuses a [d]
    that is not positive here, or that does not divide the number of
    entries. *)
Definition reshape_rows (t : Tensor) (d : Z) : result Tensor :=
  if (d <=? 0)%Z then Raise RuntimeError
  else if (numel t mod d =? 0)%Z
       then Ok {| shape := [(numel t / d)%Z; d]; data := data t |}
       else Raise RuntimeError.

(** [t.view(shp)] for a fully given shape. *)
Definition view (t : Tensor) (shp : list Z) : result Tensor :=
  if (numel_of shp =? numel t)%Z
  then Ok {| shape := shp; data := data t |}
  else Raise RuntimeError.

(** The size of the last axis, and the slices along it. *)
Definition last_dim (t : Tensor) : Z := last (shape t) 1%Z.

Definition rows (t : Tensor) : list (list R) :=
  chunks (Z.to_nat (last_dim t)) (data t).

(** An operation applied entry by entry. *)
Definition tmap (f : R -> R) (t : Tensor) : Tensor :=
  {| shape := shape t; data := map f (data t) |}.

(** A binary operation applied entry by entry to two tensors of one shape.
    Operands of different shapes, which torch would try to broadcast, are
    not covered: they raise here. *)
Definition ew2 (f : R -> R -> R) (a b : Tensor) : result Tensor :=
  if shape_eqb (shape a) (shape b)
  then Ok {| shape := shape a;
             data := map (fun p : R * R => f (fst p) (snd p))
                         (combine (data a) (data b)) |}
  else Raise RuntimeError.

(** An operation applied to every slice along the last axis. *)
Definition map_rows (f : list R -> list R) (t : Tensor) : Tensor :=
  {| shape := shape t; data := concat (map f (rows t)) |}.

Definition Rsum (l : list R) : R := fold_right Rplus 0%R l.

(** [t.sum(dim=-1)]: one entry per slice along the last axis, also for
    empty slices; a tensor without axes is its own sum. *)
Definition sum_last (t : Tensor) : Tensor :=
  match shape t with
  | [] => t
  | _ :: _ =>
      let d := Z.to_nat (last_dim t) in
      let lead := removelast (shape t) in
      {| shape := lead;
         data := map (fun k => Rsum (firstn d (skipn (k * d) (data t))))
                     (seq 0 (Z.to_nat (numel_of lead))) |}
  end.

Definition softmax_row (row : list R) : list R :=
  let s := Rsum (map exp row) in
  map (fun v => (exp v / s)%R) row.

(** [torch.softmax(t, dim=1)] on a tensor of two axes. *)
Definition softmax (t : Tensor) : Tensor := map_rows softmax_row t.

Definition logsumexp_row (row : list R) : R := ln (Rsum (map exp row)).

(** [t.logsumexp(dim=-1, keepdim=True)] on a tensor of two axes: one entry
    per row, shape [(N, 1)]. *)
Definition logsumexp_keepdim (t : Tensor) : Tensor :=
  {| shape := removelast (shape t) ++ [1%Z];
     data := map logsumexp_row (rows t) |}.

(** [a - b] for [a] of shape [(N, D)] and [b] of shape [(N, 1)]: the entry
    of [b] is subtracted from the whole row of [a]. *)
Definition sub_keepdim (a b : Tensor) : Tensor :=
  {| shape := shape a;
     data := concat (map (fun p : list R * R => map (fun v => (v - snd p)%R) (fst p))
                         (combine (rows a) (data b))) |}.

(** [t.detach()] has the forward value of [t]. *)
Definition detach (t : Tensor) : Tensor := t.

(** *** Embeddings *)

Inductive Embedding : Type :=
| OneHotEmbedding (d : Z)
| LearnedEmbedding (num_embeddings embedding_dim : Z) (weight : list (list R)).

(** Modelled from the spec: [OneHotEmbedding] of [nnu/nn/module/embed.py],
    which is not among the sources; the spec calls it a fixed one-hot table
    mapping an index to a vector. *)
Definition one_hot (d : Z) (k : nat) : list R :=
  map (fun j => if Nat.eqb j k then 1%R else 0%R) (seq 0 (Z.to_nat d)).

(** [nn.Embedding(num_embeddings, embedding_dim)] of torch allocates a table
    of that size, [weight] being what it is filled with, and raises
    [RuntimeError] when a size is negative. *)
Definition nn_Embedding (num_embeddings embedding_dim : Z)
    (weight : list (list R)) : result Embedding :=
  if (num_embeddings <? 0)%Z || (embedding_dim <? 0)%Z then Raise RuntimeError
  else Ok (LearnedEmbedding num_embeddings embedding_dim weight).

(** The vector an embedding gives to an index; [nn.Embedding] of torch
    returns the row of its weight table. *)
Definition lookup (e : Embedding) (k : nat) : list R :=
  match e with
  | OneHotEmbedding d => one_hot d k
  | LearnedEmbedding _ _ w => nth k w []
  end.

Definition embedding_dim_of (e : Embedding) : Z :=
  match e with
  | OneHotEmbedding d => d
  | LearnedEmbedding _ dim _ => dim
  end.

(** [embed(idx)] for an index tensor of shape [(N, 1)]: shape [(N, 1, d)]. *)
Definition apply_embedding (e : Embedding) (idx : list nat) : Tensor :=
  {| shape := [Z.of_nat (length idx); 1%Z; embedding_dim_of e];
     data := concat (map (lookup e) idx) |}.

(** [torch.multinomial(probs, 1, replacement=True)]: one index per row of
    [probs], shape [(N, 1)].  The draws are an input of the model: [draws r]
    is the category drawn for row [r]. *)
Definition multinomial (draws : nat -> nat) (probs : Tensor) : list nat :=
  map draws (seq 0 (length (rows probs))).

(** Modelled from the spec: [as_shape] of [nnu/nn/shape.py], which is not
    among the sources; it normalises a scalar or a sequence into a tuple. *)
Inductive shape_arg : Type :=
| ShapeInt (d : Z)
| ShapeTuple (dims : list Z).

Definition as_shape_spec (s : shape_arg) : list Z :=
  match s with
  | ShapeInt d => [d]
  | ShapeTuple dims => dims
  end.

Section Layers.

(** The constructors below only call [as_shape]; they are stated for any
    such function. *)
Variable ShapeArg : Type.
Variable as_shape : ShapeArg -> list Z.

(** *** [CategoricalStraightThrough] *)

Record CategoricalStraightThrough : Type := {
  cst_latent_shape : list Z;
  normalise : bool;
  embed : Embedding
}.

(** [CategoricalStraightThrough.__init__]; [weight] is the table an
    [nn.Embedding] starts with.  Building the one-hot embedding is taken
    not to fail ([OneHotEmbedding] is not among the sources); building the
    learned one fails as [nn.Embedding] does. *)
Definition cst_init (latent_shape : ShapeArg) (normalise0 onehot : bool)
    (weight : list (list R)) : result CategoricalStraightThrough :=
  let latent_shape := as_shape latent_shape in
  if negb (Nat.eqb (length latent_shape) 1) then Raise AssertionError
  else
    d <- Py.getitem latent_shape 0 ;;
    embed0 <- (if onehot then Ok (OneHotEmbedding d)
               else nn_Embedding d d weight) ;;
    Ok {| cst_latent_shape := latent_shape;
          normalise := normalise0;
          embed := embed0 |}.

(** The local [logits] of [forward] once reshaped and, when asked,
    normalised. *)
Definition cst_logits (self : CategoricalStraightThrough) (logits : Tensor)
  : result Tensor :=
  d <- Py.getitem (cst_latent_shape self) 0 ;;
  logits <- reshape_rows logits d ;;
  Ok (if normalise self
      then sub_keepdim logits (logsumexp_keepdim logits)
      else logits).

(** The local [probs] of [forward]. *)
Definition cst_probs (self : CategoricalStraightThrough) (logits : Tensor)
  : result Tensor :=
  logits <- cst_logits self logits ;;
  Ok (softmax logits).

(** [CategoricalStraightThrough.forward], over the reals: line 64 is
    evaluated as Python groups it, [(sample + probs) - probs.detach()], in
    exact arithmetic.  What single precision makes of that line is
    [straight_through_f32] below. *)
Definition cst_forward (self : CategoricalStraightThrough)
    (draws : nat -> nat) (logits : Tensor) : result (Tensor * Tensor) :=
  let original_shape := shape logits in
  logits <- cst_logits self logits ;;
  let probs := softmax logits in
  let sample := multinomial draws probs in
  sample <- view (apply_embedding (embed self) sample) (shape probs) ;;
  s <- ew2 Rplus sample probs ;;
  ret <- ew2 Rminus s (detach probs) ;;
  ret <- view ret original_shape ;;
  Ok (ret, logits).






(** *** [DiagonalGuassian] *)

Record DiagonalGuassian : Type := {
  dg_latent_shape : list Z
}.

(** [DiagonalGuassian.__init__]. *)
Definition dg_init (latent_shape : ShapeArg) : result DiagonalGuassian :=
  let latent_shape := as_shape latent_shape in
  if negb (Nat.eqb (length latent_shape) 1) then Raise ValueError
  else Ok {| dg_latent_shape := latent_shape |}.

(** [torch.empty_like(t).normal_()]: [noise k] is the [k]-th standard normal
    draw, an input of the model. *)
Definition normal_like (noise : nat -> R) (t : Tensor) : Tensor :=
  {| shape := shape t; data := map noise (seq 0 (length (data t))) |}.

(** [DiagonalGuassian.forward]. *)
Definition dg_forward (self : DiagonalGuassian) (noise : nat -> R)
    (mu logvar : Tensor) : result (Tensor * Tensor * Tensor) :=
  if negb (shape_eqb (shape mu) (shape logvar)) then Raise AssertionError
  else
    let original_shape := shape mu in
    d <- Py.getitem (dg_latent_shape self) 0 ;;
    mu <- reshape_rows mu d ;;
    d <- Py.getitem (dg_latent_shape self) 0 ;;
    logvar <- reshape_rows logvar d ;;
    scaled <- ew2 Rmult (normal_like noise mu)
                        (tmap (fun v => exp (v / 2)) logvar) ;;
    sample <- ew2 Rplus scaled mu ;;
    sample <- view sample original_shape ;;
    Ok (sample, mu, logvar).

End Layers.

(** *** [GumbelSoftmax] *)

Record GumbelSoftmax : Type := {
  tau : R;
  hard : bool;
  eps : R;
  dim : Z
}.

(** [GumbelSoftmax.__init__(tau, hard, eps, dim)] stores its arguments. *)
Definition gs_init (tau0 : R) (hard0 : bool) (eps0 : R) (dim0 : Z)
  : GumbelSoftmax :=
  {| tau := tau0; hard := hard0; eps := eps0; dim := dim0 |}.

(** [t.reshape(shp)] for a fully given shape: the entries stay, the shape
    changes, and the number of entries must agree. *)
Definition reshape (t : Tensor) (shp : list Z) : result Tensor := view t shp.

Section Gumbel.

(** [F.gumbel_softmax(logits, tau, hard, eps, dim)] of torch, with the
    noise it draws: what one call returns. *)
Variable gumbel_softmax : Tensor -> R -> bool -> R -> Z -> Tensor.

(** [GumbelSoftmax.forward]. *)
Definition gs_forward (self : GumbelSoftmax) (logits : Tensor)
  : result Tensor :=
  d <- Py.getitem (shape logits) (-1) ;;
  logits_ <- reshape_rows logits d ;;
  let z := gumbel_softmax logits_ (tau self) (hard self) (eps self) (dim self) in
  reshape z (shape logits).

End Gumbel.

(** [DiagonalGuassian.kl_divergence(mu1, logvar1, mu2=None, logvar2=None)]. *)
Definition kl_divergence (mu1 logvar1 : Tensor) (mu2 logvar2 : option Tensor)
  : result Tensor :=
  match mu2, logvar2 with
  | Some mu2, Some logvar2 =>
      let ivar2 := tmap (fun v => (1 / exp v)%R) logvar2 in
      dmu <- ew2 Rminus mu1 mu2 ;;
      t1 <- ew2 Rminus logvar1 logvar2 ;;
      t2 <- ew2 Rmult dmu ivar2 ;;
      t2 <- ew2 Rmult t2 dmu ;;
      t3 <- ew2 Rmult ivar2 (tmap exp logvar1) ;;
      s <- ew2 Rplus t1 t2 ;;
      s <- ew2 Rplus s t3 ;;
      let s := sum_last s in
      d <- Py.getitem (shape mu1) (-1) ;;
      Ok (tmap (fun v => ((v - IZR d) / 2)%R) s)
  | None, None =>
      s <- ew2 Rplus (tmap (fun v => (v ^ 2)%R) mu1) (tmap exp logvar1) ;;
      s <- ew2 Rminus s logvar1 ;;
      let s := sum_last s in
      d <- Py.getitem (shape mu1) (-1) ;;
      Ok (tmap (fun v => ((v - IZR d) / 2)%R) s)
  | _, _ => Raise AssertionError
  end.

(** A tensor filled with one value. *)
Definition full (shp : list Z) (v : R) : Tensor :=
  {| shape := shp; data := repeat v (Z.to_nat (numel_of shp)) |}.



(** A row minus its own log-sum-exp. *)
Definition normalise_row (row : list R) : list R :=
  map (fun v => (v - logsumexp_row row)%R) row.

End Sample.

(** ** Concrete instances used in the examples below *)

Module Examples.

Open Scope Z_scope.

(** A model that doubles every entry and a corruption that adds one. *)
Definition double_model : DAE.Model Z :=
  {| DAE.call := map (fun v => 2 * v); DAE.parameters_device := DAE.cpu |}.

Definition add_one (t : list Z) : list Z := map (fun v => v + 1) t.

(** A step function that does not keep the shape: it repeats its input. *)
Definition repeat_twice (t : list Z) : list Z := t ++ t.

Definition same (t : list Z) : list Z := t.

(** Five samples in batches of two, one walk-back step: the scenario of the
    specification. *)
Definition five_samples : list Z := [10; 20; 30; 40; 50].

(** The dataset the constructor builds from them. *)
Definition five_dataset : DAE.WalkbackDataset Z :=
  {| DAE.model := double_model; DAE.corrupt := add_one; DAE.n := 3;
     DAE.batch_size := 2;
     DAE.data := [([10; 20], [[10; 20]; [11; 21]; [23; 43]]);
                  ([30; 40], [[30; 40]; [31; 41]; [63; 83]]);
                  ([50], [[50]; [51]; [103]])];
     DAE.dev := DAE.cpu; DAE.model_device := DAE.cpu |}.

(** Two samples in one full batch of two, no walk-back step. *)
Definition two_samples : list Z := [10; 20].

Definition two_dataset : DAE.WalkbackDataset Z :=
  {| DAE.model := double_model; DAE.corrupt := add_one; DAE.n := 2;
     DAE.batch_size := 2;
     DAE.data := [([10; 20], [[10; 20]; [11; 21]])];
     DAE.dev := DAE.cpu; DAE.model_device := DAE.cpu |}.

(** The dataset the constructor builds from an empty collection. *)
Definition empty_dataset : DAE.WalkbackDataset Z :=
  {| DAE.model := double_model; DAE.corrupt := add_one; DAE.n := 3;
     DAE.batch_size := 2; DAE.data := [];
     DAE.dev := DAE.cpu; DAE.model_device := DAE.cpu |}.

(** Tensors for the sampling layers. *)
Definition mu_2x2 : Sample.Tensor :=
  {| Sample.shape := [2; 2]; Sample.data := [1; 2; 3; 4]%R |}.

Definition logvar_2x2 : Sample.Tensor :=
  {| Sample.shape := [2; 2]; Sample.data := [0; 1; 0; 1]%R |}.

Definition logits_2x3 : Sample.Tensor :=
  {| Sample.shape := [2; 3]; Sample.data := [1; 2; 3; 0; 0; 0]%R |}.

Definition mu_1x4 : Sample.Tensor :=
  {| Sample.shape := [1; 4]; Sample.data := [1; 2; 3; 4]%R |}.

Definition mu_5 : Sample.Tensor :=
  {| Sample.shape := [5]; Sample.data := [1; 2; 3; 4; 5]%R |}.

Definition logits_1x6 : Sample.Tensor :=
  {| Sample.shape := [1; 6]; Sample.data := [1; 2; 3; 0; 0; 0]%R |}.

Definition scalar_tensor : Sample.Tensor :=
  {| Sample.shape := []; Sample.data := [1%R] |}.

Definition empty_last_axis : Sample.Tensor :=
  {| Sample.shape := [2; 0]; Sample.data := [] |}.

Definition one_hot_layer (normalise : bool) : Sample.CategoricalStraightThrough :=
  {| Sample.cst_latent_shape := [3]; Sample.normalise := normalise;
     Sample.embed := Sample.OneHotEmbedding 3 |}.



Definition gumbel_layer : Sample.GumbelSoftmax :=
  Sample.gs_init 1 false (1 / 10) (-1).

(** A stand-in for [F.gumbel_softmax] that keeps shapes: the row-wise
    softmax of the logits divided by the temperature. *)
Definition soft_only (t : Sample.Tensor) (tau : R) (hard : bool) (eps : R)
    (dim : Z) : Sample.Tensor :=
  Sample.softmax (Sample.tmap (fun v => (v / tau)%R) t).

End Examples.

(** * Properties *)

Unset Implicit Arguments.

(** ** Sequential batching *)

Section BatchingFacts.

Variable A : Type.
Implicit Types (l : list A) (bs fuel : nat).

Lemma chunks_fuel_nil fuel bs : chunks_fuel fuel bs (@nil A) = [].
Proof. destruct fuel; reflexivity. Qed.

Lemma chunks_fuel_enough bs (Hbs : (0 < bs)%nat) fuel1 :
  forall fuel2 l,
    (length l <= fuel1)%nat -> (length l <= fuel2)%nat ->
    chunks_fuel fuel1 bs l = chunks_fuel fuel2 bs l.
Proof.
  induction fuel1 as [|f1 IH]; intros fuel2 l H1 H2.
  - destruct l; [now rewrite !chunks_fuel_nil | simpl in H1; lia].
  - destruct l as [|a l]; [now rewrite !chunks_fuel_nil|].
    destruct fuel2 as [|f2]; [simpl in H2; lia|].
    cbn [chunks_fuel]. f_equal.
    apply IH; rewrite length_skipn; cbn [length] in *; lia.
Qed.

Lemma chunks_step bs (Hbs : (0 < bs)%nat) l :
  l <> [] -> chunks bs l = firstn bs l :: chunks bs (skipn bs l).
Proof.
  intros Hl. unfold chunks. destruct l as [|a l]; [congruence|].
  cbn [length chunks_fuel]. f_equal.
  apply chunks_fuel_enough; trivial; rewrite length_skipn; cbn [length]; lia.
Qed.

Lemma chunks_nil bs : chunks bs (@nil A) = [].
Proof. reflexivity. Qed.

(** Fuel never runs out: the batches put together are the collection. *)
Lemma chunks_concat bs (Hbs : (0 < bs)%nat) l : concat (chunks bs l) = l.
Proof.
  remember (length l) as k eqn:Hk. revert l Hk.
  induction k as [k IH] using lt_wf_ind. intros l Hk.
  destruct l as [|a l]; [reflexivity|].
  rewrite chunks_step by (trivial; discriminate).
  cbn [concat]. rewrite (IH (length (skipn bs (a :: l)))); trivial.
  - apply firstn_skipn.
  - rewrite length_skipn. subst k. cbn [length]. lia.
Qed.

Lemma chunks_app_full bs (Hbs : (0 < bs)%nat) r l :
  length r = bs -> chunks bs (r ++ l) = r :: chunks bs l.
Proof.
  intros Hr. rewrite chunks_step; trivial.
  - rewrite firstn_app, skipn_app, Hr, Nat.sub_diag.
    rewrite <- Hr at 1 3. rewrite firstn_all, skipn_all.
    cbn [firstn skipn]. now rewrite app_nil_r.
  - destruct r; [simpl in Hr; lia | discriminate].
Qed.

Lemma chunks_of_concat bs (Hbs : (0 < bs)%nat) (rs : list (list A)) :
  Forall (fun r => length r = bs) rs -> chunks bs (concat rs) = rs.
Proof.
  induction 1 as [|r rs Hr _ IH]; [reflexivity|].
  cbn [concat]. rewrite chunks_app_full; trivial. now rewrite IH.
Qed.

(** Every batch but the last is full; the last holds between one and
    [bs] samples. *)
Lemma chunks_shape bs (Hbs : (0 < bs)%nat) l :
  l <> [] ->
  exists full last_batch,
    chunks bs l = full ++ [last_batch] /\
    Forall (fun b => length b = bs) full /\
    (0 < length last_batch <= bs)%nat /\
    length l = (length full * bs + length last_batch)%nat.
Proof.
  remember (length l) as k eqn:Hk. revert l Hk.
  induction k as [k IH] using lt_wf_ind. intros l Hk Hl.
  rewrite chunks_step by trivial.
  destruct (le_lt_dec (length l) bs) as [Hle|Hgt].
  - exists [], l. rewrite skipn_all2, firstn_all2 by trivial.
    repeat split; trivial.
    + destruct l; [congruence | simpl; lia].
  - destruct (IH (length (skipn bs l))) with (l := skipn bs l)
      as (full & lb & E & Hfull & Hlb & Hlen); trivial.
    + rewrite length_skipn. lia.
    + intros E. apply (f_equal (@length A)) in E.
      rewrite length_skipn in E. cbn [length] in E. lia.
    + exists (firstn bs l :: full), lb. rewrite E.
      repeat split; try tauto; try lia.
      * constructor; trivial. rewrite length_firstn. lia.
      * rewrite length_skipn in Hlen. cbn [length]. lia.
Qed.

Lemma chunks_exact bs (Hbs : (0 < bs)%nat) l k :
  length l = (k * bs)%nat ->
  Forall (fun b => length b = bs) (chunks bs l) /\ length (chunks bs l) = k.
Proof.
  revert l. induction k as [|k IH]; intros l Hl.
  - destruct l; [split; [constructor | reflexivity] | discriminate].
  - rewrite <- (firstn_skipn bs l).
    assert (Hf : length (firstn bs l) = bs) by (rewrite length_firstn; lia).
    rewrite chunks_app_full by trivial.
    destruct (IH (skipn bs l)) as [H1 H2].
    + rewrite length_skipn. lia.
    + split; [constructor; trivial | simpl; now rewrite H2].
Qed.

End BatchingFacts.

(** ** Indexing a concatenation of equally long pieces *)

Section FlatMapFacts.

Variables A B : Type.
Variable f : A -> list B.

Lemma length_flat_map_uniform (s : nat) (l : list A) :
  Forall (fun a => length (f a) = s) l ->
  length (flat_map f l) = (length l * s)%nat.
Proof.
  induction 1 as [|a l Ha _ IH]; [reflexivity|].
  cbn [flat_map]. rewrite length_app, Ha, IH. simpl. lia.
Qed.

Lemma nth_error_flat_map_uniform (s : nat) (l : list A) :
  Forall (fun a => length (f a) = s) l ->
  forall q r a,
    (r < s)%nat -> nth_error l q = Some a ->
    nth_error (flat_map f l) (q * s + r) = nth_error (f a) r.
Proof.
  induction 1 as [|a0 l Ha _ IH]; intros q r a Hr Hq.
  - destruct q; discriminate.
  - cbn [flat_map]. destruct q as [|q]; simpl in Hq.
    + injection Hq as ->. simpl. apply nth_error_app1. lia.
    + rewrite nth_error_app2 by (rewrite Ha; simpl; lia).
      rewrite Ha. replace (S q * s + r - s)%nat with (q * s + r)%nat by (simpl; lia).
      now apply IH.
Qed.

End FlatMapFacts.

(** ** The chain generator *)

Section ChainFacts.

Variables X Sh : Type.
Variable shape_of : X -> Sh.
Variables model corrupt : X -> X.

Lemma chain_loop_length k c : length (DAE.chain_loop model corrupt k c) = k.
Proof. revert c; induction k as [|k IH]; intros c; simpl; auto. Qed.

(** The generator yields once before its loop: a depth below one still
    gives one element. *)
Lemma chain_length x n :
  length (DAE.chain model corrupt x n) = Z.to_nat (Z.max 1 n).
Proof.
  unfold DAE.chain, Py.range_len. cbn [length]. rewrite chain_loop_length. lia.
Qed.

Lemma chain_loop_step k c i prev :
  nth_error (c :: DAE.chain_loop model corrupt k c) i = Some prev ->
  (i < k)%nat ->
  nth_error (DAE.chain_loop model corrupt k c) i = Some (corrupt (model prev)).
Proof.
  revert c i prev. induction k as [|k IH]; intros c i prev Hp Hi; [lia|].
  destruct i as [|i]; simpl in Hp |- *.
  - now injection Hp as ->.
  - apply IH; [exact Hp | lia].
Qed.

Lemma chain_loop_shape
    (Hcorrupt : forall t, shape_of (corrupt t) = shape_of t)
    (Hmodel : forall t, shape_of (model t) = shape_of t) k c :
  Forall (fun c' => shape_of c' = shape_of c) (DAE.chain_loop model corrupt k c).
Proof.
  revert c. induction k as [|k IH]; intros c; simpl; constructor.
  - now rewrite Hcorrupt, Hmodel.
  - eapply Forall_impl; [|apply IH]. simpl. intros a ->.
    now rewrite Hcorrupt, Hmodel.
Qed.

Lemma chain_shape
    (Hcorrupt : forall t, shape_of (corrupt t) = shape_of t)
    (Hmodel : forall t, shape_of (model t) = shape_of t) x n :
  Forall (fun c => shape_of c = shape_of x) (DAE.chain model corrupt x n).
Proof.
  unfold DAE.chain. constructor; [apply Hcorrupt|].
  eapply Forall_impl; [|apply chain_loop_shape; trivial].
  simpl. intros a ->. apply Hcorrupt.
Qed.

(** C4 (as amended): for a depth [n >= 1] and a step function and a
    corruption function that both keep the shape, [chain] returns exactly
    [n] tensors of the shape of the seed; the first is [corrupt seed] and
    each later one is [corrupt (model previous)]. *)
Theorem chain_elements
    (Hcorrupt : forall t, shape_of (corrupt t) = shape_of t)
    (Hmodel : forall t, shape_of (model t) = shape_of t)
    (x : X) (n : Z) (Hn : (1 <= n)%Z) :
  let cs := DAE.chain model corrupt x n in
  Z.of_nat (length cs) = n /\
  Forall (fun c => shape_of c = shape_of x) cs /\
  nth_error cs 0 = Some (corrupt x) /\
  (forall i, (1 <= i < length cs)%nat ->
     exists prev, nth_error cs (i - 1) = Some prev /\
                  nth_error cs i = Some (corrupt (model prev))).
Proof.
  cbv zeta. rewrite chain_length. repeat split.
  - lia.
  - now apply chain_shape.
  - intros i Hi. unfold DAE.chain in *.
    set (k := Py.range_len (n - 1)) in *.
    assert (Hk : (i - 1 < k)%nat)
      by (unfold k, Py.range_len; lia).
    destruct (nth_error (corrupt x :: DAE.chain_loop model corrupt k (corrupt x)) (i - 1))
      as [prev|] eqn:E.
    + exists prev. split; trivial.
      destruct i as [|i]; [lia|]. cbn [nth_error].
      replace (S i - 1)%nat with i in * by lia.
      now apply chain_loop_step.
    + apply nth_error_None in E. cbn [length] in E.
      rewrite chain_loop_length in E. lia.
Qed.

End ChainFacts.

(** C4, witness: depth three on a one-entry seed. *)
Lemma chain_elements_witness :
  let cs := DAE.chain (DAE.call Examples.double_model) Examples.add_one [5%Z] 3 in
  Z.of_nat (length cs) = 3%Z /\
  Forall (fun c => length c = length [5%Z]) cs /\
  nth_error cs 0 = Some (Examples.add_one [5%Z]) /\
  (forall i, (1 <= i < length cs)%nat ->
     exists prev, nth_error cs (i - 1) = Some prev /\
                  nth_error cs i
                  = Some (Examples.add_one (DAE.call Examples.double_model prev))).
Proof.
  apply chain_elements with (shape_of := @length Z).
  - intros t. unfold Examples.add_one. apply length_map.
  - intros t. simpl. apply length_map.
  - lia.
Defined.

(** C4, as stated, fails twice: at depth zero the generator still returns
    one tensor, and a step function that changes the shape gives later
    elements another shape than the seed although the corruption keeps
    shapes. *)
Lemma chain_as_stated_fails :
  length (DAE.chain Examples.same Examples.same [7%Z] 0) = 1%nat /\
  (forall t, length (Examples.same t) = length t) /\
  nth_error (DAE.chain Examples.repeat_twice Examples.same [7%Z] 2) 1
  = Some [7%Z; 7%Z].
Proof. repeat split. Qed.

(** ** The chain stored for a batch *)

Section StoredChainFacts.

Variable T : Type.
Variable m : DAE.Model T.
Variable cor : list T -> list T.

Lemma walkback_loop_chain_loop k c :
  DAE.walkback_loop m cor k c = DAE.chain_loop (DAE.call m) cor k c.
Proof. revert c; induction k as [|k IH]; intros c; simpl; [|rewrite IH]; reflexivity. Qed.

(** The equation holds whatever [self.n] is. *)
Lemma _chain_unfold n_total mdev b :
  DAE._chain m cor n_total mdev b
  = b :: DAE.chain (DAE.call m) cor b (n_total - 1).
Proof.
  unfold DAE._chain, DAE.chain, DAE.to. rewrite walkback_loop_chain_loop.
  do 3 f_equal. unfold Py.range_len. f_equal. lia.
Qed.

(** C5: the chain stored for a batch [b] is [b] followed by
    [chain(b, model, corrupt, n_total - 1)]; it has [n_total] elements, the
    first is [b] itself and the others are the walk-back chain. *)
Theorem stored_chain_is_original_then_chain
    (n_walkback : Z) (Hn : (0 <= n_walkback)%Z) (mdev : DAE.device)
    (b : list T) :
  let n_total := (2 + n_walkback)%Z in
  let stored := DAE._chain m cor n_total mdev b in
  let walk := DAE.chain (DAE.call m) cor b (n_total - 1) in
  stored = b :: walk /\
  Z.of_nat (length stored) = n_total /\
  nth_error stored 0 = Some b /\
  (forall k, nth_error stored (S k) = nth_error walk k).
Proof.
  cbv zeta. rewrite _chain_unfold. cbn [length nth_error].
  rewrite chain_length. repeat split. lia.
Qed.

End StoredChainFacts.

(** C5, witness: a batch of two samples and one walk-back step. *)
Lemma stored_chain_is_original_then_chain_witness :
  let stored := DAE._chain Examples.double_model Examples.add_one 3 DAE.cpu [10%Z; 20%Z] in
  let walk := DAE.chain (DAE.call Examples.double_model) Examples.add_one [10%Z; 20%Z] (3 - 1) in
  stored = [10%Z; 20%Z] :: walk /\
  Z.of_nat (length stored) = 3%Z /\
  nth_error stored 0 = Some [10%Z; 20%Z] /\
  (forall k, nth_error stored (S k) = nth_error walk k).
Proof.
  apply (stored_chain_is_original_then_chain Z Examples.double_model
           Examples.add_one 1). lia.
Defined.

(** ** Python indexing *)

(** Settles the comparisons that [Py.getitem] makes on an index. *)
Ltac index_bounds :=
  repeat match goal with
         | |- context [(?a <? ?b)%Z] => destruct (Z.ltb_spec a b); try lia
         | |- context [(?a <=? ?b)%Z] => destruct (Z.leb_spec a b); try lia
         end;
  cbn [orb].

Section IndexFacts.

Variable A : Type.
Implicit Types (l : list A) (j : Z).

Lemma getitem_nonneg l j a :
  (0 <= j)%Z -> nth_error l (Z.to_nat j) = Some a -> Py.getitem l j = Ok a.
Proof.
  intros Hj Hn. unfold Py.getitem.
  assert (Hlt : (Z.to_nat j < length l)%nat)
    by (apply nth_error_Some; congruence).
  index_bounds. now rewrite Hn.
Qed.

Lemma getitem_last l a : Py.getitem (l ++ [a]) (-1) = Ok a.
Proof.
  unfold Py.getitem. rewrite length_app. cbn [length]. index_bounds.
  replace (Z.to_nat (-1 + Z.of_nat (length l + 1))) with (length l) by lia.
  now rewrite nth_error_app2, Nat.sub_diag by lia.
Qed.

Lemma getitem_beyond l j :
  (Z.of_nat (length l) <= j)%Z -> Py.getitem l j = Raise IndexError.
Proof. intros Hj. unfold Py.getitem. index_bounds. reflexivity. Qed.

End IndexFacts.

(** ** The walk-back dataset *)

Section WalkbackFacts.

Variable T : Type.
Implicit Types (self : DAE.WalkbackDataset T) (i : Z).

Local Open Scope Z_scope.

(** Construction succeeds for every positive batch size, and stores for each
    batch of the loader the batch and its chain. *)
Lemma init_ok (x : list T) m cor n0 bs d :
  0 < bs ->
  DAE.__init__ x m cor n0 bs d
  = Ok {| DAE.model := m; DAE.corrupt := cor; DAE.n := 2 + n0;
          DAE.batch_size := bs;
          DAE.data := map (fun b => (b, b :: DAE.chain (DAE.call m) cor b (2 + n0 - 1)))
                          (chunks (Z.to_nat bs) x);
          DAE.dev := d; DAE.model_device := DAE.parameters_device m |}.
Proof.
  intros Hbs. unfold DAE.__init__, DataLoader.
  destruct (Z.leb_spec bs 0); [lia|]. cbn [bind]. do 2 f_equal.
  apply map_ext. intros b. unfold DAE.to. rewrite map_id.
  now rewrite _chain_unfold.
Qed.

Lemma init_invariant (x : list T) m cor n0 bs d self
    (Hmodel : forall t, length (DAE.call m t) = length t)
    (Hcorrupt : forall t, length (cor t) = length t) :
  x <> [] -> 0 <= n0 ->
  DAE.__init__ x m cor n0 bs d = Ok self ->
  DAE.invariant self.
Proof.
  intros Hx Hn0 Hinit.
  assert (Hbs : 0 < bs).
  { unfold DAE.__init__, DataLoader in Hinit.
    destruct (Z.leb_spec bs 0); [discriminate | trivial]. }
  rewrite init_ok in Hinit by trivial.
  apply (f_equal (fun r => match r with Ok a => a | Raise _ => self end)) in Hinit.
  subst self.
  unfold DAE.invariant. cbn [DAE.batch_size DAE.n DAE.data].
  split; [trivial|]. split; [lia|]. split.
  - apply Forall_map, Forall_forall. intros b _. split; cbn [fst snd].
    + cbn [length]. rewrite chain_length. lia.
    + constructor; trivial.
      apply chain_shape with (shape_of := @length T); trivial.
  - destruct (chunks_shape T (Z.to_nat bs)) with (l := x)
      as (full & lb & E & Hfull & Hlb & _); [lia | trivial |].
    rewrite E, map_app. cbn [map].
    eexists _, _. split; [reflexivity|]. split.
    + apply Forall_map. eapply Forall_impl; [|exact Hfull].
      cbn [fst]. intros a ->. lia.
    + cbn [fst]. lia.
Qed.

Lemma len_invariant self :
  DAE.invariant self ->
  exists full last_record,
    DAE.data self = full ++ [last_record] /\
    DAE.__len__ self
    = Ok (Z.of_nat (length full) * DAE.batch_size self * DAE.n self
          + DAE.n self * Z.of_nat (length (fst last_record))) /\
    DAE.len self = DAE.__len__ self.
Proof.
  intros (Hbs & Hn & _ & full & lr & E & _ & Hlr).
  exists full, lr. split; [trivial|].
  assert (Hlen : DAE.__len__ self
    = Ok (Z.of_nat (length full) * DAE.batch_size self * DAE.n self
          + DAE.n self * Z.of_nat (length (fst lr)))).
  { unfold DAE.__len__. rewrite E, getitem_last. cbn [bind].
    rewrite length_app. cbn [length]. do 3 f_equal. lia. }
  split; [exact Hlen|].
  unfold DAE.len. rewrite Hlen. cbn [bind].
  destruct (Z.ltb_spec
    (Z.of_nat (length full) * DAE.batch_size self * DAE.n self
     + DAE.n self * Z.of_nat (length (fst lr))) 0); [nia | reflexivity].
Qed.

Lemma pair_at_some (y c : list T) (e : nat) :
  (e < length y)%nat -> length c = length y ->
  exists xe ye,
    nth_error c e = Some xe /\ nth_error y e = Some ye /\
    DAE.pair_at y c e = [(xe, ye)].
Proof.
  intros He Hc. unfold DAE.pair_at.
  destruct (nth_error c e) as [xe|] eqn:Ec.
  - destruct (nth_error y e) as [ye|] eqn:Ey.
    + now exists xe, ye.
    + apply nth_error_None in Ey. lia.
  - apply nth_error_None in Ec. lia.
Qed.

Lemma pairs_uniform (y c : list T) :
  length c = length y ->
  Forall (fun e => length (DAE.pair_at y c e) = 1%nat) (seq 0 (length y)).
Proof.
  intros Hc. apply Forall_forall. intros e He. apply in_seq in He.
  destruct (pair_at_some y c e) as (xe & ye & _ & _ & ->); trivial; lia.
Qed.

Lemma chain_positions_uniform n_total (r : list T * list (list T)) :
  DAE.record_ok n_total r ->
  Forall (fun c => length (flat_map (DAE.pair_at (fst r) c) (seq 0 (length (fst r))))
                   = length (fst r)) (snd r).
Proof.
  intros [_ Hch]. eapply Forall_impl; [|exact Hch]. cbv beta. intros c Hc.
  rewrite length_flat_map_uniform with (s := 1%nat), length_seq; [lia|].
  now apply pairs_uniform.
Qed.

Lemma enumerate_record_length n_total (r : list T * list (list T)) :
  DAE.record_ok n_total r ->
  length (DAE.enumerate_record r) = (length (snd r) * length (fst r))%nat.
Proof.
  intros Hr. destruct r as [y ch]. unfold DAE.enumerate_record.
  apply length_flat_map_uniform. exact (chain_positions_uniform _ _ Hr).
Qed.

(** Inside one record, position [c * len(batch) + e] of the enumeration is
    element [e] of chain position [c], paired with element [e] of the
    batch. *)
Lemma enumerate_record_nth n_total (r : list T * list (list T))
    (c e : nat) :
  DAE.record_ok n_total r ->
  (c < length (snd r))%nat -> (e < length (fst r))%nat ->
  exists cv xe ye,
    nth_error (snd r) c = Some cv /\
    nth_error cv e = Some xe /\
    nth_error (fst r) e = Some ye /\
    nth_error (DAE.enumerate_record r) (c * length (fst r) + e) = Some (xe, ye).
Proof.
  intros Hr Hc He. destruct r as [y ch]. cbn [fst snd] in *.
  destruct (nth_error ch c) as [cv|] eqn:Ec;
    [|apply nth_error_None in Ec; lia].
  assert (Hcv : length cv = length y).
  { destruct Hr as [_ Hch]. rewrite Forall_forall in Hch.
    apply Hch. eapply nth_error_In, Ec. }
  destruct (pair_at_some y cv e) as (xe & ye & Ex & Ey & Ep); trivial.
  exists cv, xe, ye. repeat split; trivial.
  unfold DAE.enumerate_record.
  rewrite nth_error_flat_map_uniform with (a := cv);
    [| exact (chain_positions_uniform _ _ Hr) | trivial | trivial].
  replace e with (e * 1 + 0)%nat at 1 by lia.
  rewrite nth_error_flat_map_uniform with (a := e);
    [now rewrite Ep | now apply pairs_uniform | lia |].
  rewrite nth_error_seq.
  destruct (Nat.ltb_spec e (length y)); [reflexivity | lia].
Qed.

Lemma full_records_uniform self (full : list (list T * list (list T))) :
  Forall (DAE.record_ok (DAE.n self)) full ->
  Forall (fun r => Z.of_nat (length (fst r)) = DAE.batch_size self) full ->
  Forall (fun r => length (DAE.enumerate_record r)
                   = Z.to_nat (DAE.batch_size self * DAE.n self)) full.
Proof.
  intros Hok Hfull. rewrite Forall_forall in *. intros r Hr.
  rewrite enumerate_record_length with (n_total := DAE.n self) by auto.
  destruct (Hok r Hr) as [Hch _]. specialize (Hfull r Hr).
  rewrite <- Hch, <- Hfull, <- Nat2Z.inj_mul, Nat2Z.id. lia.
Qed.

(** The first two steps of the decomposition find the record that the
    enumeration reaches at position [i], and the offset inside it. *)
Lemma locate_record self i L :
  DAE.invariant self -> DAE.__len__ self = Ok L -> 0 <= i < L ->
  let stride := DAE.batch_size self * DAE.n self in
  exists r,
    nth_error (DAE.data self) (Z.to_nat (i / stride)) = Some r /\
    0 <= i mod stride < DAE.n self * Z.of_nat (length (fst r)) /\
    nth_error (DAE.enumerate self) (Z.to_nat i)
    = nth_error (DAE.enumerate_record r) (Z.to_nat (i mod stride)).
Proof.
  intros Hinv HL Hi stride.
  destruct (len_invariant self Hinv) as (full & lr & E & HL' & _).
  destruct Hinv as (Hbs & Hn & Hok & full' & lr' & E' & Hfull & Hlr).
  rewrite E in E'. apply app_inj_tail in E' as [<- <-].
  rewrite HL in HL'. injection HL' as ->.
  assert (Hs : 0 < stride) by (unfold stride; nia).
  pose proof (Z.div_mod i stride ltac:(lia)) as Hdm.
  pose proof (Z.mod_pos_bound i stride Hs) as Hr.
  assert (Hq : 0 <= i / stride) by (apply Z.div_pos; lia).
  rewrite E in Hok. apply Forall_app in Hok as [Hokf Hokl].
  pose proof (full_records_uniform self full Hokf Hfull) as Hunif.
  fold stride in Hunif.
  assert (Hsplit : Z.to_nat i
                   = (Z.to_nat (i / stride) * Z.to_nat stride
                      + Z.to_nat (i mod stride))%nat) by nia.
  unfold DAE.enumerate. rewrite E, flat_map_app. cbn [flat_map].
  rewrite app_nil_r.
  destruct (Z_lt_le_dec (i / stride) (Z.of_nat (length full))) as [Hlt|Hge].
  - destruct (nth_error full (Z.to_nat (i / stride))) as [r|] eqn:Er;
      [|apply nth_error_None in Er; lia].
    exists r. split; [|split].
    + rewrite nth_error_app1; [trivial | lia].
    + rewrite Forall_forall in Hfull.
      rewrite (Hfull r (nth_error_In _ _ Er)). fold stride. lia.
    + rewrite nth_error_app1.
      * rewrite Hsplit. apply nth_error_flat_map_uniform; trivial. lia.
      * rewrite length_flat_map_uniform with (s := Z.to_nat stride) by trivial.
        nia.
  - assert (Hqeq : i / stride = Z.of_nat (length full)).
    { assert (i < (Z.of_nat (length full) + 1) * stride) by (unfold stride in *; nia).
      nia. }
    exists lr. split; [|split].
    + rewrite nth_error_app2 by lia.
      replace (Z.to_nat (i / stride) - length full)%nat with 0%nat by lia.
      reflexivity.
    + unfold stride in *. nia.
    + rewrite nth_error_app2;
        rewrite length_flat_map_uniform with (s := Z.to_nat stride) by trivial;
        [|nia].
      f_equal. nia.
Qed.

(** [__getitem__] evaluated along the six steps of the decomposition. *)
Lemma getitem_eval self i y ch cv xe ye :
  0 <= i ->
  0 < DAE.batch_size self * DAE.n self ->
  let i_rem := i mod (DAE.batch_size self * DAE.n self) in
  let actual := Z.of_nat (length y) in
  nth_error (DAE.data self)
            (Z.to_nat (i / (DAE.batch_size self * DAE.n self))) = Some (y, ch) ->
  0 < actual ->
  nth_error ch (Z.to_nat (i_rem / actual)) = Some cv ->
  nth_error cv (Z.to_nat (i_rem mod actual)) = Some xe ->
  nth_error y (Z.to_nat (i_rem mod actual)) = Some ye ->
  DAE.__getitem__ self i = Ok (xe, ye).
Proof.
  intros Hi Hs i_rem actual Hrec Ha Hcv Hxe Hye.
  assert (Hr : 0 <= i_rem) by (apply Z.mod_pos_bound; lia).
  unfold DAE.__getitem__, Py.floordiv, Py.modulo.
  destruct (Z.gtb_spec 0 i); [lia|]. cbn [bind].
  destruct (Z.eqb_spec (DAE.batch_size self * DAE.n self) 0); [lia|].
  cbn [bind].
  rewrite getitem_nonneg with (a := (y, ch));
    [| apply Z.div_pos; lia | trivial].
  cbn [bind fst]. fold actual. fold i_rem.
  destruct (Z.eqb_spec actual 0); [lia|]. cbn [bind].
  rewrite getitem_nonneg with (a := cv); [| apply Z.div_pos; lia | trivial].
  cbn [bind].
  rewrite getitem_nonneg with (a := xe);
    [| apply Z.mod_pos_bound; lia | trivial].
  cbn [bind].
  rewrite getitem_nonneg with (a := ye);
    [| apply Z.mod_pos_bound; lia | trivial].
  reflexivity.
Qed.

(** Random access and enumeration agree on every dataset that satisfies the
    invariant of the constructor. *)
Lemma getitem_enumerate_invariant self i L :
  DAE.invariant self -> DAE.__len__ self = Ok L -> 0 <= i < L ->
  let i_rem := i mod (DAE.batch_size self * DAE.n self) in
  exists y ch cv xe ye,
    let actual := Z.of_nat (length y) in
    nth_error (DAE.data self)
              (Z.to_nat (i / (DAE.batch_size self * DAE.n self))) = Some (y, ch) /\
    nth_error ch (Z.to_nat (i_rem / actual)) = Some cv /\
    nth_error cv (Z.to_nat (i_rem mod actual)) = Some xe /\
    nth_error y (Z.to_nat (i_rem mod actual)) = Some ye /\
    DAE.__getitem__ self i = Ok (xe, ye) /\
    nth_error (DAE.enumerate self) (Z.to_nat i) = Some (xe, ye).
Proof.
  intros Hinv HL Hi i_rem.
  destruct (locate_record self i L Hinv HL Hi) as (r & Hrec & Hrem & Henum).
  fold i_rem in Hrem, Henum.
  destruct Hinv as (Hbs & Hn & Hok & _).
  assert (Hr : DAE.record_ok (DAE.n self) r).
  { rewrite Forall_forall in Hok. apply Hok. eapply nth_error_In, Hrec. }
  destruct r as [y ch]. cbn [fst] in Hrem.
  set (actual := Z.of_nat (length y)) in *.
  assert (Ha : 0 < actual) by nia.
  pose proof (Z.div_mod i_rem actual ltac:(lia)) as Hdm.
  pose proof (Z.mod_pos_bound i_rem actual Ha) as He.
  assert (Hc : 0 <= i_rem / actual < DAE.n self).
  { split; [apply Z.div_pos; lia | apply Z.div_lt_upper_bound; lia]. }
  destruct (enumerate_record_nth (DAE.n self) (y, ch)
              (Z.to_nat (i_rem / actual)) (Z.to_nat (i_rem mod actual)) Hr)
    as (cv & xe & ye & Ecv & Exe & Eye & Enth).
  { destruct Hr as [Hlen _]. cbn [snd] in *. lia. }
  { cbn [fst]. unfold actual in *. lia. }
  cbn [fst snd] in *.
  exists y, ch, cv, xe, ye. cbv zeta. fold actual.
  repeat split; trivial.
  - apply getitem_eval with (y := y) (ch := ch) (cv := cv); trivial; try nia.
  - rewrite Henum, <- Enth. f_equal. unfold actual in *. nia.
Qed.

Lemma enumerate_length self L :
  DAE.invariant self -> DAE.__len__ self = Ok L ->
  Z.of_nat (length (DAE.enumerate self)) = L.
Proof.
  intros Hinv HL.
  destruct (len_invariant self Hinv) as (full & lr & E & HL' & _).
  destruct Hinv as (Hbs & Hn & Hok & full' & lr' & E' & Hfull & Hlr).
  rewrite E in E'. apply app_inj_tail in E' as [<- <-].
  rewrite HL in HL'. injection HL' as ->.
  rewrite E in Hok. apply Forall_app in Hok as [Hokf Hokl].
  unfold DAE.enumerate. rewrite E, flat_map_app, length_app.
  cbn [flat_map]. rewrite app_nil_r.
  rewrite length_flat_map_uniform
    with (s := Z.to_nat (DAE.batch_size self * DAE.n self))
    by (apply full_records_uniform; trivial).
  apply Forall_inv in Hokl.
  rewrite enumerate_record_length with (n_total := DAE.n self) by trivial.
  destruct Hokl as [Hch _]. nia.
Qed.

(** An empty base collection leaves nothing to take the length of. *)
Lemma len_empty_collection m cor n0 bs d self :
  DAE.__init__ (@nil T) m cor n0 bs d = Ok self ->
  DAE.len self = Raise IndexError.
Proof.
  unfold DAE.__init__, DataLoader. destruct (bs <=? 0); [discriminate|].
  cbn [bind]. intros H.
  apply (f_equal (fun r => match r with Ok a => a | Raise _ => self end)) in H.
  subst self. reflexivity.
Qed.

(** C1: on a dataset built by the constructor (callables that keep the
    batch size, walk-back depth not negative), [get(i)] for
    [0 <= i < len(dataset)] returns the pair given by the six-step
    decomposition, and that pair is the [i]-th of the in-order enumeration
    over batches, chain positions and batch elements, which has
    [len(dataset)] pairs. *)
Theorem getitem_matches_enumeration
    (x : list T) (m : DAE.Model T) (cor : list T -> list T)
    (n_walkback bs : Z) (d : DAE.device) (self : DAE.WalkbackDataset T)
    (i L : Z)
    (Hmodel : forall t, length (DAE.call m t) = length t)
    (Hcorrupt : forall t, length (cor t) = length t)
    (Hdepth : 0 <= n_walkback)
    (Hinit : DAE.__init__ x m cor n_walkback bs d = Ok self)
    (Hlen : DAE.len self = Ok L)
    (Hi : 0 <= i < L) :
  let n_total := DAE.n self in
  let b_index := i / (DAE.batch_size self * n_total) in
  let i_rem := i mod (DAE.batch_size self * n_total) in
  Z.of_nat (length (DAE.enumerate self)) = L /\
  exists original_batch chain c_tensor x_out y_out,
    let actual_batch_size := Z.of_nat (length original_batch) in
    let c_index := i_rem / actual_batch_size in
    let e_index := i_rem mod actual_batch_size in
    nth_error (DAE.data self) (Z.to_nat b_index) = Some (original_batch, chain) /\
    nth_error chain (Z.to_nat c_index) = Some c_tensor /\
    nth_error c_tensor (Z.to_nat e_index) = Some x_out /\
    nth_error original_batch (Z.to_nat e_index) = Some y_out /\
    DAE.__getitem__ self i = Ok (x_out, y_out) /\
    nth_error (DAE.enumerate self) (Z.to_nat i) = Some (x_out, y_out).
Proof.
  intros n_total b_index i_rem.
  assert (Hx : x <> []).
  { intros ->. rewrite (len_empty_collection _ _ _ _ _ _ Hinit) in Hlen.
    discriminate. }
  pose proof (init_invariant x m cor n_walkback bs d self Hmodel Hcorrupt
                Hx Hdepth Hinit) as Hinv.
  destruct (len_invariant self Hinv) as (_ & _ & _ & _ & Hlen').
  rewrite Hlen' in Hlen.
  split; [now apply enumerate_length|].
  exact (getitem_enumerate_invariant self i L Hinv Hlen Hi).
Qed.

(** C3: for a non-empty base collection and a positive batch size the
    constructor succeeds, the loader gives full batches followed by a last
    one of between one and [batch_size] samples, and [__len__] is
    [(num_batches - 1) * batch_size * n_total + n_total * last_size] with
    [n_total = n_walkback + 2]; this is [n_total] pairs per sample, and
    [batch_size * n_total] when the collection has exactly [batch_size]
    samples. *)
Theorem len_closed_form
    (x : list T) (m : DAE.Model T) (cor : list T -> list T)
    (n_walkback bs : Z) (d : DAE.device)
    (Hx : x <> []) (Hbs : 0 < bs) :
  let n_total := n_walkback + 2 in
  exists self full last_batch,
    let num_batches := Z.of_nat (length (full ++ [last_batch])) in
    let last_size := Z.of_nat (length last_batch) in
    DAE.__init__ x m cor n_walkback bs d = Ok self /\
    DataLoader x bs = Ok (full ++ [last_batch]) /\
    map fst (DAE.data self) = full ++ [last_batch] /\
    Forall (fun b => Z.of_nat (length b) = bs) full /\
    0 < last_size <= bs /\
    DAE.__len__ self
    = Ok ((num_batches - 1) * bs * n_total + n_total * last_size) /\
    DAE.__len__ self = Ok (Z.of_nat (length x) * n_total) /\
    (Z.of_nat (length x) = bs -> DAE.__len__ self = Ok (bs * n_total)).
Proof.
  intros n_total.
  destruct (chunks_shape T (Z.to_nat bs)) with (l := x)
    as (full & lb & E & Hfull & Hlb & Hlen); [lia | trivial |].
  eexists _, full, lb. cbv zeta.
  split; [apply init_ok; trivial|].
  cbn [DAE.data DAE.__len__ DAE.batch_size DAE.n].
  assert (Hlen_eq : DAE.__len__
    {| DAE.model := m; DAE.corrupt := cor; DAE.n := 2 + n_walkback;
       DAE.batch_size := bs;
       DAE.data := map (fun b => (b, b :: DAE.chain (DAE.call m) cor b (2 + n_walkback - 1)))
                       (chunks (Z.to_nat bs) x);
       DAE.dev := d; DAE.model_device := DAE.parameters_device m |}
    = Ok ((Z.of_nat (length (full ++ [lb])) - 1) * bs * n_total
          + n_total * Z.of_nat (length lb))).
  { unfold DAE.__len__. cbn [DAE.data DAE.batch_size DAE.n].
    rewrite E, map_app. cbn [map]. rewrite getitem_last. cbn [bind fst].
    rewrite !length_app, length_map. cbn [length]. unfold n_total.
    do 2 f_equal; lia. }
  split; [unfold DataLoader; destruct (Z.leb_spec bs 0); [lia | now rewrite E]|].
  split; [rewrite map_map; cbn [fst]; now rewrite map_id|].
  split; [eapply Forall_impl; [|exact Hfull]; cbv beta; intros a ->; lia|].
  split; [lia|].
  split; [exact Hlen_eq|].
  rewrite Hlen_eq, length_app. cbn [length].
  split; [f_equal; nia|].
  intros Hxb. f_equal.
  assert (length full = 0%nat) by nia. nia.
Qed.

(** Beyond the end the element access does fail: the index arithmetic
    selects a batch or a chain position that is not stored. *)
Lemma getitem_beyond_len self i L :
  DAE.invariant self -> DAE.__len__ self = Ok L -> L <= i ->
  DAE.__getitem__ self i = Raise IndexError.
Proof.
  intros Hinv HL Hi.
  destruct (len_invariant self Hinv) as (full & lr & E & HL' & _).
  destruct Hinv as (Hbs & Hn & Hok & full' & lr' & E' & Hfull & Hlr).
  rewrite E in E'. apply app_inj_tail in E' as [<- <-].
  rewrite HL in HL'. injection HL' as ->.
  set (stride := DAE.batch_size self * DAE.n self) in *.
  assert (Hs : 0 < stride) by (unfold stride; nia).
  pose proof (Z.div_mod i stride ltac:(lia)) as Hdm.
  pose proof (Z.mod_pos_bound i stride Hs) as Hr.
  assert (Hi0 : 0 <= i) by (unfold stride in *; nia).
  assert (Hq : Z.of_nat (length full) <= i / stride).
  { apply Z.div_le_lower_bound; unfold stride in *; nia. }
  unfold DAE.__getitem__, Py.floordiv, Py.modulo. fold stride.
  destruct (Z.gtb_spec 0 i); [lia|]. cbn [bind].
  destruct (Z.eqb_spec stride 0); [lia|]. cbn [bind].
  destruct (Z_lt_le_dec (Z.of_nat (length full)) (i / stride)) as [Hgt|Hle].
  - rewrite getitem_beyond; [reflexivity|].
    rewrite E, length_app. cbn [length]. lia.
  - assert (Hqeq : i / stride = Z.of_nat (length full)) by lia.
    rewrite getitem_nonneg with (a := lr); [| lia |].
    2:{ rewrite E, nth_error_app2 by lia.
        replace (Z.to_nat (i / stride) - length full)%nat with 0%nat by lia.
        reflexivity. }
    cbn [bind].
    destruct (Z.eqb_spec (Z.of_nat (length (fst lr))) 0); [lia|]. cbn [bind].
    destruct lr as [y ch]. cbn [fst] in *.
    rewrite E in Hok. apply Forall_app in Hok as [_ Hokl].
    apply Forall_inv in Hokl. destruct Hokl as [Hch _]. cbn [snd] in Hch.
    rewrite getitem_beyond; [reflexivity|].
    rewrite Hch. apply Z.div_le_lower_bound; [lia|].
    unfold stride in *. nia.
Qed.

End WalkbackFacts.

(** C1, witness: index 10 of the five-sample scenario. *)
Lemma getitem_matches_enumeration_witness :
  DAE.__init__ Examples.five_samples Examples.double_model Examples.add_one
               1 2 DAE.cpu = Ok Examples.five_dataset /\
  DAE.len Examples.five_dataset = Ok 15%Z /\
  Z.of_nat (length (DAE.enumerate Examples.five_dataset)) = 15%Z /\
  DAE.__getitem__ Examples.five_dataset 10 = Ok (63, 30)%Z /\
  nth_error (DAE.enumerate Examples.five_dataset) 10 = Some (63, 30)%Z.
Proof.
  split; [reflexivity|]. split; [reflexivity|].
  destruct (getitem_matches_enumeration Z Examples.five_samples
              Examples.double_model Examples.add_one 1 2 DAE.cpu
              Examples.five_dataset 10 15)
    as (Hlen & y & ch & cv & xe & ye & _ & _ & _ & _ & Hget & Henum).
  - intros t. apply length_map.
  - intros t. apply length_map.
  - lia.
  - reflexivity.
  - reflexivity.
  - lia.
  - split; [exact Hlen|]. rewrite Hget.
    vm_compute in Henum. injection Henum as <- <-. split; reflexivity.
Defined.

(** C3, witness: five samples in batches of two with one walk-back step
    give fifteen pairs. *)
Lemma len_closed_form_witness :
  exists self,
    DAE.__init__ Examples.five_samples Examples.double_model Examples.add_one
                 1 2 DAE.cpu = Ok self /\
    DAE.__len__ self = Ok (Z.of_nat (length Examples.five_samples) * (1 + 2))%Z.
Proof.
  destruct (len_closed_form Z Examples.five_samples Examples.double_model
              Examples.add_one 1 2 DAE.cpu)
    as (self & full & lb & Hinit & _ & _ & _ & _ & _ & Hlen & _).
  - discriminate.
  - lia.
  - exists self. split; [exact Hinit | exact Hlen].
Defined.

(** C2, at the failing input: on a dataset of one full batch of two samples
    ([len = 4]) the index [-1] is not rejected, it returns a stored pair.
    The guard [0 > i > len(self)] can never hold. *)
Lemma getitem_minus_one_returns_a_pair :
  DAE.__init__ Examples.two_samples Examples.double_model Examples.add_one
               0 2 DAE.cpu = Ok Examples.two_dataset /\
  DAE.len Examples.two_dataset = Ok 4%Z /\
  DAE.__getitem__ Examples.two_dataset (-1) = Ok (21, 20)%Z /\
  DAE.__getitem__ Examples.two_dataset 4 = Raise IndexError.
Proof. repeat split. Qed.

(** ** Tensors of the sampling layers *)

Section TensorFacts.

Import Sample.

Lemma shape_eqb_refl shp : shape_eqb shp shp = true.
Proof. unfold shape_eqb. destruct (list_eq_dec Z.eq_dec shp shp); congruence. Qed.

Lemma numel_of_app s1 s2 :
  numel_of (s1 ++ s2) = (numel_of s1 * numel_of s2)%Z.
Proof.
  induction s1 as [|a s1 IH]; cbn [app numel_of fold_right].
  - fold (numel_of s2). lia.
  - fold (numel_of (s1 ++ s2)) (numel_of s1). rewrite IH. lia.
Qed.

Lemma numel_of_nonneg shp :
  Forall (fun d => 0 <= d)%Z shp -> (0 <= numel_of shp)%Z.
Proof.
  induction 1 as [|a shp Ha _ IH]; cbn [numel_of fold_right]; [lia|].
  fold (numel_of shp). nia.
Qed.

Lemma getitem_singleton (d : Z) : Py.getitem [d] 0 = Ok d.
Proof. reflexivity. Qed.

(** [reshape(-1, d)] succeeds exactly as torch does when [d] is positive and
    divides the number of entries. *)
Lemma reshape_rows_ok t d k :
  (0 < d)%Z -> numel t = (k * d)%Z ->
  reshape_rows t d = Ok {| shape := [k; d]; data := data t |}.
Proof.
  intros Hd Hk. unfold reshape_rows.
  destruct (Z.leb_spec d 0); [lia|].
  rewrite Hk, Z.mod_mul, Z.div_mul by lia. reflexivity.
Qed.

Lemma view_ok t shp :
  numel_of shp = numel t -> view t shp = Ok {| shape := shp; data := data t |}.
Proof. intros H. unfold view. rewrite H, Z.eqb_refl. reflexivity. Qed.

Lemma ew2_same_shape f a b :
  shape a = shape b ->
  ew2 f a b
  = Ok {| shape := shape a;
          data := map (fun p : R * R => f (fst p) (snd p))
                      (combine (data a) (data b)) |}.
Proof. intros H. unfold ew2. now rewrite H, shape_eqb_refl. Qed.

End TensorFacts.

(** Evaluates the entry-wise operations whose operands have one shape. *)
Ltac ew2_steps :=
  repeat (rewrite ew2_same_shape
            by (cbn [Sample.shape]; first [reflexivity | congruence]);
          cbn [bind Sample.shape Sample.data]).

(** ** Construction of the stochastic layers *)

Section ConstructionFacts.

Import Sample.

Variable ShapeArg : Type.
Variable as_shape : ShapeArg -> list Z.

(** C8 (as amended): a latent shape that is not of rank one makes both
    constructors fail at once; a latent shape [(d,)] of rank one makes the
    Gaussian constructor succeed, makes the categorical constructor succeed
    when [d] is not negative, and with the learned embedding and a negative
    [d] makes it fail with the [RuntimeError] of [nn.Embedding]. *)
Theorem construction_requires_rank_one
    (latent_shape : ShapeArg) (normalise0 onehot : bool)
    (weight : list (list R)) :
  (length (as_shape latent_shape) <> 1%nat ->
   cst_init as_shape latent_shape normalise0 onehot weight = Raise AssertionError /\
   dg_init as_shape latent_shape = Raise ValueError) /\
  (forall d : Z,
     as_shape latent_shape = [d] ->
     (exists layer, dg_init as_shape latent_shape = Ok layer /\
                    dg_latent_shape layer = [d]) /\
     ((0 <= d)%Z ->
      exists layer, cst_init as_shape latent_shape normalise0 onehot weight = Ok layer /\
                    cst_latent_shape layer = [d]) /\
     ((d < 0)%Z -> onehot = false ->
      cst_init as_shape latent_shape normalise0 onehot weight = Raise RuntimeError)).
Proof.
  unfold cst_init, dg_init. split.
  - intros H. apply Nat.eqb_neq in H. rewrite H. split; reflexivity.
  - intros d ->. cbn [length Nat.eqb negb]. rewrite getitem_singleton.
    cbn [bind]. unfold nn_Embedding. split; [|split].
    + eexists. split; reflexivity.
    + intros Hd. destruct (Z.ltb_spec d 0); [lia|].
      destruct onehot; cbn [orb bind]; eexists; split; reflexivity.
    + intros Hd ->. destruct (Z.ltb_spec d 0); [reflexivity | lia].
Qed.

End ConstructionFacts.

(** C8, witness: a two-axis latent shape is refused, the scalar [4] is
    accepted as the shape [(4,)] by both constructors. *)
Lemma construction_requires_rank_one_witness :
  (Sample.cst_init Sample.as_shape_spec (Sample.ShapeTuple [4; 4]%Z) false false []
   = Raise AssertionError /\
   Sample.dg_init Sample.as_shape_spec (Sample.ShapeTuple [4; 4]%Z)
   = Raise ValueError) /\
  (exists layer, Sample.dg_init Sample.as_shape_spec (Sample.ShapeInt 4) = Ok layer /\
                 Sample.dg_latent_shape layer = [4%Z]) /\
  (exists layer, Sample.cst_init Sample.as_shape_spec (Sample.ShapeInt 4)
                                 false false [] = Ok layer /\
                 Sample.cst_latent_shape layer = [4%Z]).
Proof.
  split.
  - apply (construction_requires_rank_one _ Sample.as_shape_spec
             (Sample.ShapeTuple [4; 4]%Z) false false []).
    simpl. lia.
  - destruct (construction_requires_rank_one _ Sample.as_shape_spec
                (Sample.ShapeInt 4) false false []) as [_ Hone].
    destruct (Hone 4%Z eq_refl) as (Hdg & Hcst & _).
    split; [exact Hdg | apply Hcst; lia].
Defined.

(** C8, as stated, fails: the latent shape [(-1,)] is of rank one, and with
    the learned embedding the categorical constructor raises, because
    [nn.Embedding(-1, -1)] does. *)
Lemma construction_fails_on_negative_size :
  length (Sample.as_shape_spec (Sample.ShapeTuple [-1]%Z)) = 1%nat /\
  Sample.cst_init Sample.as_shape_spec (Sample.ShapeTuple [-1]%Z) false false []
  = Raise RuntimeError.
Proof. split; reflexivity. Qed.

(** ** The diagonal Gaussian layer *)

Section GaussianFacts.

Import Sample.

Variable ShapeArg : Type.
Variable as_shape : ShapeArg -> list Z.

Local Open Scope Z_scope.

(** What [forward] returns when the latent size divides the input. *)
Lemma dg_forward_ok (self : DiagonalGuassian) (noise : nat -> R)
    (mu logvar : Tensor) (d k : Z) :
  dg_latent_shape self = [d] -> 0 < d ->
  shape logvar = shape mu -> numel mu = k * d ->
  dg_forward self noise mu logvar
  = Ok ({| shape := shape mu;
           data := map (fun p : R * R => (fst p + snd p)%R)
                     (combine
                        (map (fun p : R * R => (fst p * snd p)%R)
                           (combine (map noise (seq 0 (length (data mu))))
                                    (map (fun v => exp (v / 2)) (data logvar))))
                        (data mu)) |},
        {| shape := [k; d]; data := data mu |},
        {| shape := [k; d]; data := data logvar |}).
Proof.
  intros Hls Hd Hshape Hk. unfold dg_forward.
  rewrite Hshape, shape_eqb_refl. cbn [negb]. rewrite Hls, getitem_singleton.
  cbn [bind].
  rewrite (reshape_rows_ok mu d k) by trivial. cbn [bind].
  rewrite (reshape_rows_ok logvar d k)
    by (trivial; unfold numel in *; now rewrite Hshape).
  cbn [bind].
  unfold normal_like, tmap. ew2_steps.
  rewrite view_ok.
  - reflexivity.
  - unfold numel in *. cbn [shape numel_of fold_right].
    rewrite Hk. lia.
Qed.

(** C9: when a row of the input holds [m > 1] latent blocks of size [D],
    [forward] returns the sample in the shape of the input, but [mu] and
    [logvar] in the flattened shape [(N, D)], which is not the shape of the
    input. *)
Theorem dg_forward_returns_flattened_parameters
    (latent_shape : ShapeArg) (self : DiagonalGuassian) (noise : nat -> R)
    (mu logvar : Tensor) (n m D : Z) (trailing : list Z)
    (Hinit : dg_init as_shape latent_shape = Ok self)
    (Hlatent : as_shape latent_shape = [D])
    (HD : 0 < D) (Hm : 1 < m)
    (Hshape : shape mu = n :: trailing)
    (Hsame : shape logvar = shape mu)
    (Hblocks : numel_of trailing = m * D) :
  exists sample mu_out logvar_out,
    dg_forward self noise mu logvar = Ok (sample, mu_out, logvar_out) /\
    shape sample = shape mu /\
    shape mu_out = [n * m; D] /\
    shape logvar_out = [n * m; D] /\
    data mu_out = data mu /\
    data logvar_out = data logvar /\
    shape mu_out <> shape mu /\
    shape logvar_out <> shape logvar.
Proof.
  assert (Hls : dg_latent_shape self = [D]).
  { unfold dg_init in Hinit. rewrite Hlatent in Hinit. cbn in Hinit.
    injection Hinit as <-. reflexivity. }
  assert (Hk : numel mu = (n * m) * D).
  { unfold numel. rewrite Hshape. cbn [numel_of fold_right].
    fold (numel_of trailing). rewrite Hblocks. lia. }
  rewrite (dg_forward_ok self noise mu logvar D (n * m)) by trivial.
  eexists _, _, _. split; [reflexivity|]. cbn [shape data].
  assert (Hne : [n * m; D] <> n :: trailing).
  { intros E. injection E as E1 E2. subst trailing.
    cbn [numel_of fold_right] in Hblocks. nia. }
  rewrite Hsame, Hshape. repeat split; trivial.
Qed.

End GaussianFacts.

(** C9, witness: latent size [2], input of shape [(1, 4)]: two blocks per
    row; [mu] comes back with shape [(2, 2)]. *)
Lemma dg_forward_returns_flattened_parameters_witness :
  let mu := {| Sample.shape := [1; 4]%Z; Sample.data := [1; 2; 3; 4]%R |} in
  let logvar := {| Sample.shape := [1; 4]%Z; Sample.data := [0; 0; 0; 0]%R |} in
  exists sample mu_out logvar_out,
    Sample.dg_forward {| Sample.dg_latent_shape := [2%Z] |} (fun _ => 0%R) mu logvar
    = Ok (sample, mu_out, logvar_out) /\
    Sample.shape sample = [1; 4]%Z /\
    Sample.shape mu_out = [2; 2]%Z /\
    Sample.shape logvar_out = [2; 2]%Z.
Proof.
  intros mu logvar.
  destruct (dg_forward_returns_flattened_parameters _ Sample.as_shape_spec
              (Sample.ShapeInt 2) {| Sample.dg_latent_shape := [2%Z] |}
              (fun _ => 0%R) mu logvar 1 2 2 [4%Z])
    as (s & mo & lo & E & Hs & Hm & Hl & _);
    try reflexivity; try lia.
  exists s, mo, lo. repeat split; assumption.
Defined.

(** ** The KL divergence of diagonal Gaussians *)

Section KLFacts.

Import Sample.

Lemma zip_map_map (A B C E : Type) (f : B * C -> E) (g1 : A -> B) (g2 : A -> C)
    (l : list A) :
  map f (combine (map g1 l) (map g2 l)) = map (fun x => f (g1 x, g2 x)) l.
Proof. induction l as [|a l IH]; cbn; [|rewrite IH]; reflexivity. Qed.

Lemma unzip_combine (A B : Type) (a : list A) (b : list B) :
  length a = length b ->
  a = map fst (combine a b) /\ b = map snd (combine a b).
Proof.
  revert b. induction a as [|x a IH]; intros [|y b] H; try discriminate.
  - split; reflexivity.
  - cbn in *. destruct (IH b) as [Ha Hb]; [lia|].
    split; f_equal; assumption.
Qed.

Lemma map_const_repeat (A B : Type) (v : B) (l : list A) :
  map (fun _ => v) l = repeat v (length l).
Proof. induction l as [|a l IH]; cbn; [|rewrite IH]; reflexivity. Qed.

Lemma combine_repeat (A B : Type) (a : A) (b : B) (n : nat) :
  combine (repeat a n) (repeat b n) = repeat (a, b) n.
Proof. induction n as [|n IH]; cbn; [|rewrite IH]; reflexivity. Qed.

Lemma skipn_repeat (A : Type) (v : A) (k n : nat) :
  skipn k (repeat v n) = repeat v (n - k).
Proof.
  revert n. induction k as [|k IH]; intros n.
  - now rewrite Nat.sub_0_r.
  - destruct n as [|n]; [reflexivity | apply IH].
Qed.

Lemma firstn_repeat_le (A : Type) (v : A) (k n : nat) :
  (k <= n)%nat -> firstn k (repeat v n) = repeat v k.
Proof.
  revert n. induction k as [|k IH]; intros n H; [reflexivity|].
  destruct n as [|n]; [lia|]. cbn. f_equal. apply IH. lia.
Qed.

Lemma slice_repeat (A : Type) (v : A) (d k n : nat) :
  (k < n)%nat ->
  firstn d (skipn (k * d) (repeat v (n * d))) = repeat v d.
Proof.
  intros H. rewrite skipn_repeat. apply firstn_repeat_le. nia.
Qed.

Lemma Rsum_repeat (v : R) (n : nat) : Rsum (repeat v n) = (INR n * v)%R.
Proof.
  induction n as [|n IH]; [cbn; lra|].
  cbn [repeat Rsum fold_right]. fold (Rsum (repeat v n)).
  rewrite IH, S_INR. lra.
Qed.

Lemma shape_split shp :
  shp <> [] -> shp = removelast shp ++ [last shp 1%Z].
Proof. intros H. now apply app_removelast_last. Qed.

Lemma getitem_minus_one shp :
  shp <> [] -> Py.getitem shp (-1) = Ok (last shp 1%Z).
Proof.
  intros H. rewrite (shape_split shp H) at 1. apply getitem_last.
Qed.

Lemma numel_split shp :
  shp <> [] -> numel_of shp = (numel_of (removelast shp) * last shp 1)%Z.
Proof.
  intros H. rewrite (shape_split shp H) at 1. rewrite numel_of_app.
  cbn [numel_of fold_right]. lia.
Qed.

Lemma nonneg_split shp :
  shp <> [] -> Forall (fun d => 0 <= d)%Z shp ->
  (0 <= last shp 1)%Z /\ (0 <= numel_of (removelast shp))%Z.
Proof.
  intros H Hn. rewrite (shape_split shp H) in Hn.
  apply Forall_app in Hn as [Hl Hd]. split.
  - now apply Forall_inv in Hd.
  - now apply numel_of_nonneg.
Qed.

(** Summing a constant tensor along its last axis. *)
Lemma sum_last_constant shp (v : R) (len : nat) :
  shp <> [] -> Forall (fun d => 0 <= d)%Z shp ->
  Z.of_nat len = numel_of shp ->
  sum_last {| shape := shp; data := repeat v len |}
  = full (removelast shp) (IZR (last shp 1%Z) * v).
Proof.
  intros Hne Hnn Hlen. unfold sum_last, full. cbn [shape data].
  destruct shp as [|d0 shp0] eqn:Eshp; [congruence|]. rewrite <- Eshp in *.
  unfold last_dim. cbn [shape]. f_equal.
  destruct (nonneg_split shp Hne Hnn) as [Hd Hlead].
  rewrite (numel_split shp Hne) in Hlen.
  replace len
    with (Z.to_nat (numel_of (removelast shp)) * Z.to_nat (last shp 1%Z))%nat
    by nia.
  set (lead := Z.to_nat (numel_of (removelast shp))).
  replace (repeat (IZR (last shp 1%Z) * v)%R lead)
    with (map (fun _ : nat => (IZR (last shp 1%Z) * v)%R) (seq 0 lead))
    by (now rewrite map_const_repeat, length_seq).
  apply map_ext_in. intros k Hk.
  apply in_seq in Hk. rewrite slice_repeat by lia.
  rewrite Rsum_repeat, INR_IZR_INZ, Z2Nat.id by trivial. reflexivity.
Qed.

(** C7: the divergence of a diagonal Gaussian from itself is zero on every
    leading index, and so is the divergence of the standard normal
    [(mu, logvar) = (0, 0)] from the standard normal. *)
Theorem kl_divergence_of_equal_gaussians_is_zero
    (mu logvar : Tensor)
    (Hmu : wf mu) (Hlogvar : wf logvar)
    (Hshape : shape logvar = shape mu)
    (Hrank : shape mu <> []) :
  kl_divergence mu logvar (Some mu) (Some logvar)
  = Ok (full (removelast (shape mu)) 0) /\
  kl_divergence (full (shape mu) 0) (full (shape mu) 0) None None
  = Ok (full (removelast (shape mu)) 0).
Proof.
  destruct Hmu as [Hnn Hlen]. destruct Hlogvar as [_ Hlen'].
  unfold numel in *. rewrite Hshape in Hlen'.
  assert (Hzero : forall d : Z, ((IZR d * 1 - IZR d) / 2 = 0)%R)
    by (intros d; lra).
  split.
  - unfold kl_divergence.
    assert (Hl : length (data mu) = length (data logvar)) by lia.
    destruct (unzip_combine _ _ (data mu) (data logvar) Hl) as [Em El].
    set (l := combine (data mu) (data logvar)) in *.
    unfold tmap. ew2_steps.
    rewrite getitem_minus_one by trivial. cbn [bind].
    rewrite Em, El. repeat (rewrite ?map_map, ?zip_map_map; cbn [fst snd]).
    rewrite ?Hshape.
    rewrite map_ext with (g := fun _ => 1%R).
    + rewrite map_const_repeat, sum_last_constant; trivial.
      * unfold full. cbn [shape data]. now rewrite map_repeat, Hzero.
      * unfold l. rewrite length_combine. lia.
    + intros [m v]. cbn [fst snd]. pose proof (exp_pos v). field. lra.
  - unfold kl_divergence.
    unfold tmap, full. ew2_steps.
    rewrite getitem_minus_one by trivial. cbn [bind].
    rewrite ?map_repeat, ?combine_repeat, ?map_repeat, ?combine_repeat, ?map_repeat.
    cbn [fst snd].
    rewrite sum_last_constant; trivial.
    + unfold full. cbn [shape data]. rewrite map_repeat. do 3 f_equal.
      rewrite exp_0. lra.
    + rewrite Z2Nat.id; [reflexivity | now apply numel_of_nonneg].
Qed.

End KLFacts.

(** C7, witness: a batch of two Gaussians of dimension two. *)
Lemma kl_divergence_of_equal_gaussians_is_zero_witness :
  let mu := {| Sample.shape := [2; 2]%Z; Sample.data := [1; 2; 3; 4]%R |} in
  let logvar := {| Sample.shape := [2; 2]%Z; Sample.data := [0; 1; 0; 1]%R |} in
  Sample.kl_divergence mu logvar (Some mu) (Some logvar)
  = Ok (Sample.full [2%Z] 0) /\
  Sample.kl_divergence (Sample.full [2; 2]%Z 0) (Sample.full [2; 2]%Z 0) None None
  = Ok (Sample.full [2%Z] 0).
Proof.
  intros mu logvar.
  apply (kl_divergence_of_equal_gaussians_is_zero mu logvar).
  - split; [repeat constructor; lia | reflexivity].
  - split; [repeat constructor; lia | reflexivity].
  - reflexivity.
  - discriminate.
Defined.

(** ** Row-wise operations *)

Section RowFacts.

Import Sample.


Lemma zip_self_map (A B C : Type) (f : A * B -> C) (g : A -> B) (l : list A) :
  map f (combine l (map g l)) = map (fun x => f (x, g x)) l.
Proof. induction l as [|a l IH]; cbn; [|rewrite IH]; reflexivity. Qed.

Lemma rows_concat (k D : Z) (rs : list (list R)) :
  (0 < D)%Z -> Forall (fun r => length r = Z.to_nat D) rs ->
  rows {| shape := [k; D]; data := concat rs |} = rs.
Proof.
  intros HD Hrs. unfold rows, last_dim. cbn [shape data last].
  apply chunks_of_concat; [lia | trivial].
Qed.

Lemma softmax_row_length row : length (softmax_row row) = length row.
Proof. unfold softmax_row. apply length_map. Qed.

Lemma normalise_row_length row : length (normalise_row row) = length row.
Proof. unfold normalise_row. apply length_map. Qed.

Lemma Forall_map_length (d : nat) (f : list R -> list R) (rs : list (list R)) :
  (forall r, length (f r) = length r) ->
  Forall (fun r => length r = d) rs ->
  Forall (fun r => length r = d) (map f rs).
Proof.
  intros Hf Hrs. apply Forall_map. eapply Forall_impl; [|exact Hrs].
  cbv beta. intros r <-. apply Hf.
Qed.

Lemma softmax_concat (k D : Z) (rs : list (list R)) :
  (0 < D)%Z -> Forall (fun r => length r = Z.to_nat D) rs ->
  softmax {| shape := [k; D]; data := concat rs |}
  = {| shape := [k; D]; data := concat (map softmax_row rs) |}.
Proof.
  intros HD Hrs. unfold softmax, map_rows. now rewrite rows_concat.
Qed.

Lemma normalise_concat (k D : Z) (rs : list (list R)) :
  (0 < D)%Z -> Forall (fun r => length r = Z.to_nat D) rs ->
  let t := {| shape := [k; D]; data := concat rs |} in
  sub_keepdim t (logsumexp_keepdim t)
  = {| shape := [k; D]; data := concat (map normalise_row rs) |}.
Proof.
  intros HD Hrs t. unfold sub_keepdim, logsumexp_keepdim. cbn [data].
  unfold t at 2 3. rewrite rows_concat by trivial.
  now rewrite zip_self_map.
Qed.

Lemma Rsum_exp_pos row : row <> [] -> (0 < Rsum (map exp row))%R.
Proof.
  intros H. destruct row as [|v row]; [congruence|]. clear H.
  revert v. induction row as [|u row IH]; intros v.
  - cbn. pose proof (exp_pos v). lra.
  - cbn [map Rsum fold_right]. specialize (IH u).
    cbn [map Rsum fold_right] in IH. pose proof (exp_pos v). lra.
Qed.

Lemma Rsum_exp_shift (c : R) (row : list R) :
  Rsum (map exp (map (fun v => (v - c)%R) row)) = (Rsum (map exp row) / exp c)%R.
Proof.
  pose proof (exp_pos c) as Hc.
  induction row as [|v row IH]; cbn [map Rsum fold_right].
  - field. lra.
  - fold (Rsum (map exp (map (fun v => (v - c)%R) row))) (Rsum (map exp row)).
    rewrite IH. unfold Rminus at 1. rewrite exp_plus, exp_Ropp. field. lra.
Qed.

(** Softmax does not see a constant subtracted from a row. *)
Lemma softmax_row_shift (c : R) (row : list R) :
  softmax_row (map (fun v => (v - c)%R) row) = softmax_row row.
Proof.
  destruct row as [|v0 row0] eqn:E; [reflexivity|]. rewrite <- E.
  assert (Hpos : (0 < Rsum (map exp row))%R)
    by (apply Rsum_exp_pos; rewrite E; discriminate).
  pose proof (exp_pos c) as Hc.
  unfold softmax_row. rewrite Rsum_exp_shift, map_map.
  apply map_ext. intros v.
  unfold Rminus at 1. rewrite exp_plus, exp_Ropp. field. lra.
Qed.

Lemma softmax_normalise_row row :
  softmax_row (normalise_row row) = softmax_row row.
Proof. apply softmax_row_shift. Qed.

Lemma logsumexp_normalise_row row :
  row <> [] -> logsumexp_row (normalise_row row) = 0%R.
Proof.
  intros H. pose proof (Rsum_exp_pos row H) as Hpos.
  unfold logsumexp_row at 1, normalise_row. rewrite Rsum_exp_shift.
  unfold logsumexp_row. rewrite exp_ln by trivial.
  replace (Rsum (map exp row) / Rsum (map exp row))%R with 1%R by (field; lra).
  apply ln_1.
Qed.





End RowFacts.

(** ** The categorical straight-through layer *)

Section CategoricalFacts.

Import Sample.

Variable ShapeArg : Type.
Variable as_shape : ShapeArg -> list Z.

Local Open Scope Z_scope.

Lemma cst_init_latent latent_shape normalise0 onehot weight layer :
  cst_init as_shape latent_shape normalise0 onehot weight = Ok layer ->
  exists d,
    as_shape latent_shape = [d] /\
    layer = {| cst_latent_shape := [d]; normalise := normalise0;
               embed := if onehot then OneHotEmbedding d
                        else LearnedEmbedding d d weight |}.
Proof.
  unfold cst_init, nn_Embedding.
  destruct (as_shape latent_shape) as [|d [|? ?]]; try discriminate.
  cbn [length Nat.eqb negb]. rewrite getitem_singleton. cbn [bind].
  intros H. exists d. split; [reflexivity|].
  destruct onehot; [|destruct ((d <? 0)%Z || (d <? 0)%Z); [discriminate|]];
    cbn [bind] in H; now injection H as <-.
Qed.

(** The rows of a well-formed input once reshaped to [(k, D)]. *)
Lemma reshaped_rows (t : Tensor) (k D : Z) :
  wf t -> 0 < D -> numel t = k * D ->
  let rs := chunks (Z.to_nat D) (data t) in
  Forall (fun r => length r = Z.to_nat D) rs /\
  length rs = Z.to_nat k /\
  concat rs = data t /\
  0 <= k.
Proof.
  intros [Hnn Hlen] HD Hk rs.
  pose proof (numel_of_nonneg _ Hnn) as Hn. fold (numel t) in Hn.
  assert (Hk0 : 0 <= k) by nia.
  destruct (chunks_exact R (Z.to_nat D) ltac:(lia) (data t) (Z.to_nat k))
    as [H1 H2]; [nia|].
  repeat split; trivial. apply chunks_concat. lia.
Qed.

Lemma cst_logits_ok (self : CategoricalStraightThrough) (logits : Tensor)
    (k D : Z) :
  cst_latent_shape self = [D] -> wf logits -> 0 < D -> numel logits = k * D ->
  let rs := chunks (Z.to_nat D) (data logits) in
  cst_logits self logits
  = Ok {| shape := [k; D];
          data := concat (if normalise self then map normalise_row rs else rs) |}.
Proof.
  intros Hls Hwf HD Hk rs.
  destruct (reshaped_rows logits k D Hwf HD Hk) as (Hrs & _ & Hcat & _).
  fold rs in Hrs, Hcat.
  unfold cst_logits. rewrite Hls, getitem_singleton. cbn [bind].
  rewrite (reshape_rows_ok logits D k) by trivial. cbn [bind].
  rewrite <- Hcat. destruct (normalise self); [|reflexivity].
  now rewrite normalise_concat.
Qed.

(** [forward] on a well-formed input whose size the latent size divides:
    it succeeds, and its first result is computed from the embedded draws
    and the probabilities [prs]. *)
Lemma cst_forward_ok (self : CategoricalStraightThrough) (draws : nat -> nat)
    (logits : Tensor) (k D : Z) :
  cst_latent_shape self = [D] -> embedding_dim_of (embed self) = D ->
  wf logits -> 0 < D -> numel logits = k * D ->
  let rs := chunks (Z.to_nat D) (data logits) in
  let used := if normalise self then map normalise_row rs else rs in
  let prs := map softmax_row used in
  let embedded :=
    concat (map (lookup (embed self)) (map draws (seq 0 (Z.to_nat k)))) in
  cst_forward self draws logits
  = Ok ({| shape := shape logits;
           data := map (fun q : R * R => (fst q - snd q)%R)
                     (combine (map (fun q : R * R => (fst q + snd q)%R)
                                   (combine embedded (concat prs)))
                              (concat prs)) |},
        {| shape := [k; D]; data := concat used |}).
Proof.
  intros Hls Hdim Hwf HD Hk rs used prs embedded.
  destruct (reshaped_rows logits k D Hwf HD Hk) as (Hrs & Hlen & Hcat & Hk0).
  fold rs in Hrs, Hlen, Hcat.
  assert (Hused : Forall (fun r => length r = Z.to_nat D) used /\
                  length used = Z.to_nat k).
  { unfold used. destruct (normalise self); [|now split].
    split; [apply Forall_map_length; trivial; apply normalise_row_length|].
    now rewrite length_map. }
  destruct Hused as [Hused Hulen].
  assert (Hprs : Forall (fun r => length r = Z.to_nat D) prs)
    by (apply Forall_map_length; trivial; apply softmax_row_length).
  unfold cst_forward.
  rewrite (cst_logits_ok self logits k D) by trivial. fold rs. fold used.
  cbn [bind]. rewrite softmax_concat by trivial. fold prs.
  unfold multinomial. rewrite rows_concat by trivial.
  unfold prs at 1. rewrite length_map, Hulen.
  rewrite view_ok.
  2:{ unfold numel, apply_embedding. cbn [shape numel_of fold_right].
      rewrite length_map, length_seq, Hdim. lia. }
  cbn [bind]. unfold apply_embedding at 1. cbn [data]. fold embedded.
  unfold detach. ew2_steps.
  rewrite view_ok; [reflexivity|].
  unfold numel in *. cbn [shape numel_of fold_right]. rewrite Hk. lia.
Qed.

Lemma map_result_bind (A B C : Type) (f : B -> C) (r : result A)
    (g : A -> result B) :
  map_result f (bind r g) = bind r (fun a => map_result f (g a)).
Proof. destruct r; reflexivity. Qed.

Lemma reshape_rows_cases (t : Tensor) (d : Z) :
  reshape_rows t d = Raise RuntimeError \/
  (0 < d /\ numel t = (numel t / d) * d).
Proof.
  unfold reshape_rows. destruct (Z.leb_spec d 0); [now left|].
  destruct (Z.eqb_spec (numel t mod d) 0) as [E|_]; [right | now left].
  split; trivial. pose proof (Z.div_mod (numel t) d ltac:(lia)). lia.
Qed.



(** C10: with the same draws, normalising the logits changes neither the
    probabilities nor the forward value of the sample; the logits returned
    with [normalise=True] are the rows of the others minus their
    log-sum-exp, and their own log-sum-exp is zero on every row. *)
Theorem normalisation_keeps_probs_and_sample
    (latent_shape : ShapeArg) (onehot : bool) (weight : list (list R))
    (normalised plain : CategoricalStraightThrough)
    (draws : nat -> nat) (logits : Tensor)
    (Hnormalised : cst_init as_shape latent_shape true onehot weight = Ok normalised)
    (Hplain : cst_init as_shape latent_shape false onehot weight = Ok plain)
    (Hwf : wf logits) :
  cst_probs normalised logits = cst_probs plain logits /\
  map_result fst (cst_forward normalised draws logits)
  = map_result fst (cst_forward plain draws logits) /\
  (forall ret logits_plain,
     cst_forward plain draws logits = Ok (ret, logits_plain) ->
     exists logits_normalised,
       cst_forward normalised draws logits = Ok (ret, logits_normalised) /\
       shape logits_normalised = shape logits_plain /\
       rows logits_normalised = map normalise_row (rows logits_plain) /\
       Forall (fun row => logsumexp_row row = 0%R) (rows logits_normalised)).
Proof.
  destruct (cst_init_latent _ _ _ _ _ Hnormalised) as (d & Hd & ->).
  destruct (cst_init_latent _ _ _ _ _ Hplain) as (d' & Hd' & ->).
  rewrite Hd in Hd'. injection Hd' as <-.
  set (E := if onehot then OneHotEmbedding d else LearnedEmbedding d d weight).
  assert (Hdim : embedding_dim_of E = d) by (unfold E; now destruct onehot).
  destruct (reshape_rows_cases logits d) as [Hfail | [Hpos Hk]].
  - unfold cst_probs, cst_forward, cst_logits. cbn [cst_latent_shape].
    rewrite getitem_singleton. cbn [bind]. rewrite Hfail. cbn [bind map_result].
    repeat split. intros ret lp H. discriminate.
  - set (k := numel logits / d) in *.
    destruct (reshaped_rows logits k d Hwf Hpos Hk) as (Hrs & Hlen & Hcat & Hk0).
    set (rs := chunks (Z.to_nat d) (data logits)) in *.
    assert (Hsoft : map softmax_row (map normalise_row rs) = map softmax_row rs).
    { rewrite map_map. apply map_ext. intros row. apply softmax_normalise_row. }
    assert (Hnrs : Forall (fun r => length r = Z.to_nat d) (map normalise_row rs))
      by (apply Forall_map_length; trivial; apply normalise_row_length).
    split; [|split].
    + unfold cst_probs.
      rewrite !(cst_logits_ok _ logits k d) by trivial.
      cbn [normalise bind]. fold rs.
      rewrite !softmax_concat by trivial. now rewrite Hsoft.
    + rewrite !(cst_forward_ok _ draws logits k d) by trivial.
      cbn [normalise embed map_result fst]. fold rs. now rewrite Hsoft.
    + intros ret lp Hfwd.
      rewrite (cst_forward_ok _ draws logits k d) in Hfwd by trivial.
      rewrite (cst_forward_ok _ draws logits k d) by trivial.
      cbn [normalise embed] in Hfwd |- *. fold rs in Hfwd |- *.
      rewrite Hsoft. injection Hfwd as <- <-.
      eexists. split; [reflexivity|]. cbn [shape].
      split; [reflexivity|].
      rewrite !rows_concat by trivial. split; [reflexivity|].
      apply Forall_map. eapply Forall_impl; [|exact Hrs]. cbv beta.
      intros row Hrow. apply logsumexp_normalise_row.
      intros ->. cbn [length] in Hrow. lia.
Qed.

End CategoricalFacts.



(** C10, witness: the same input through a normalising and a plain layer. *)
Lemma normalisation_keeps_probs_and_sample_witness :
  let logits := {| Sample.shape := [2; 3]%Z;
                   Sample.data := [1; 2; 3; 0; 0; 0]%R |} in
  let normalised := {| Sample.cst_latent_shape := [3%Z]; Sample.normalise := true;
                       Sample.embed := Sample.OneHotEmbedding 3 |} in
  let plain := {| Sample.cst_latent_shape := [3%Z]; Sample.normalise := false;
                  Sample.embed := Sample.OneHotEmbedding 3 |} in
  Sample.cst_probs normalised logits = Sample.cst_probs plain logits /\
  map_result fst (Sample.cst_forward normalised (fun _ => 1%nat) logits)
  = map_result fst (Sample.cst_forward plain (fun _ => 1%nat) logits).
Proof.
  intros logits normalised plain.
  destruct (normalisation_keeps_probs_and_sample _ Sample.as_shape_spec
              (Sample.ShapeInt 3) true [] normalised plain (fun _ => 1%nat) logits)
    as (Hp & Hs & _).
  - reflexivity.
  - reflexivity.
  - split; [repeat constructor; lia | reflexivity].
  - split; assumption.
Defined.

(** * Further properties of the code *)

(** ** The chain generator at any depth *)

Section ChainDepthFacts.

Variable X : Type.
Variables model corrupt : X -> X.

(** X1: Whatever the two callables do, [chain] returns [max 1 n] tensors: it
    yields once before its loop, and the loop runs [n - 1] times when that
    is positive. *)
Theorem chain_returns_max_one_depth (x : X) (n : Z) :
  Z.of_nat (length (DAE.chain model corrupt x n)) = Z.max 1 n.
Proof. rewrite chain_length. lia. Qed.

End ChainDepthFacts.

(** ** What the constructor stores *)

Section StorageFacts.

Variable T : Type.

Local Open Scope Z_scope.

(** X2: The original batches of the records, put together in order, are the
    base collection, and there are [ceil(len(x) / batch_size)] records. *)
Theorem init_keeps_every_sample
    (x : list T) (m : DAE.Model T) (cor : list T -> list T)
    (n_walkback bs : Z) (d : DAE.device) (Hbs : 0 < bs) :
  exists self,
    DAE.__init__ x m cor n_walkback bs d = Ok self /\
    concat (map fst (DAE.data self)) = x /\
    Z.of_nat (length (DAE.data self)) = (Z.of_nat (length x) + bs - 1) / bs.
Proof.
  eexists. split; [apply init_ok; trivial|]. cbn [DAE.data].
  rewrite map_map. cbn [fst]. rewrite map_id, length_map.
  split; [apply chunks_concat; lia|].
  destruct x as [|a x0] eqn:Ex.
  - cbn [chunks length chunks_fuel]. symmetry. apply Z.div_small. lia.
  - rewrite <- Ex.
    destruct (chunks_shape T (Z.to_nat bs)) with (l := x)
      as (full & lb & E & _ & Hlb & Hlen); [lia | rewrite Ex; discriminate |].
    rewrite E, length_app. cbn [length].
    apply Z.div_unique with (r := Z.of_nat (length lb) - 1); nia.
Qed.

Lemma getitem_nil (j : Z) : Py.getitem (@nil (list T * list (list T))) j = Raise IndexError.
Proof.
  unfold Py.getitem. cbn [length].
  destruct (j <? 0); destruct (_ <? 0); destruct (_ <=? _); cbn [orb];
    try reflexivity; now destruct (Z.to_nat _).
Qed.

(** X3: On an empty base collection the constructor succeeds and stores no
    record; then [__len__] raises [IndexError], and so does every element
    access (the stride [batch_size * n] not being zero). *)
Theorem empty_collection_cannot_be_read
    (m : DAE.Model T) (cor : list T -> list T)
    (n_walkback bs : Z) (d : DAE.device)
    (Hbs : 0 < bs) (Hn : 2 + n_walkback <> 0) :
  exists self,
    DAE.__init__ (@nil T) m cor n_walkback bs d = Ok self /\
    DAE.data self = [] /\
    DAE.__len__ self = Raise IndexError /\
    forall i, DAE.__getitem__ self i = Raise IndexError.
Proof.
  eexists. split; [apply init_ok; trivial|]. cbn [DAE.data chunks length chunks_fuel map].
  split; [reflexivity|]. split; [reflexivity|].
  intros i. unfold DAE.__getitem__, DAE.len, DAE.__len__, Py.floordiv, Py.modulo.
  cbn [DAE.data DAE.batch_size DAE.n].
  destruct (Z.gtb_spec 0 i); [reflexivity|]. cbn [bind].
  destruct (Z.eqb_spec (bs * (2 + n_walkback)) 0); [nia|]. cbn [bind].
  now rewrite getitem_nil.
Qed.

End StorageFacts.

(** X2, witness: five samples in batches of two make three records. *)
Lemma init_keeps_every_sample_witness :
  exists self,
    DAE.__init__ Examples.five_samples Examples.double_model Examples.add_one
                 1 2 DAE.cpu = Ok self /\
    concat (map fst (DAE.data self)) = Examples.five_samples /\
    Z.of_nat (length (DAE.data self)) = 3%Z.
Proof.
  apply (init_keeps_every_sample Z Examples.five_samples Examples.double_model
           Examples.add_one 1 2 DAE.cpu). lia.
Defined.

(** X3, witness: the empty collection in batches of two. *)
Lemma empty_collection_cannot_be_read_witness :
  exists self,
    DAE.__init__ (@nil Z) Examples.double_model Examples.add_one 1 2 DAE.cpu
    = Ok self /\
    DAE.data self = [] /\
    DAE.__len__ self = Raise IndexError /\
    forall i, DAE.__getitem__ self i = Raise IndexError.
Proof.
  apply (empty_collection_cannot_be_read Z Examples.double_model
           Examples.add_one 1 2 DAE.cpu); lia.
Defined.

(** ** Element access outside and inside the range *)

Section AccessFacts.

Variable T : Type.

Local Open Scope Z_scope.

Lemma getitem_wrap (A : Type) (l : list A) (j : Z) :
  - Z.of_nat (length l) <= j < 0 ->
  Py.getitem l j = Py.getitem l (j + Z.of_nat (length l)).
Proof. intros Hj. unfold Py.getitem. index_bounds. reflexivity. Qed.

Lemma getitem_below (A : Type) (l : list A) (j : Z) :
  j < - Z.of_nat (length l) -> Py.getitem l j = Raise IndexError.
Proof. intros Hj. unfold Py.getitem. index_bounds. reflexivity. Qed.

Lemma chunks_nth (A : Type) (bs : nat) (Hbs : (0 < bs)%nat) (b : nat) :
  forall (l batch : list A),
    nth_error (chunks bs l) b = Some batch ->
    batch = firstn bs (skipn (b * bs) l).
Proof.
  induction b as [|b IH]; intros l batch H.
  - destruct l as [|a l]; [discriminate|].
    rewrite chunks_step in H by (trivial; discriminate).
    cbn [nth_error] in H. injection H as <-. reflexivity.
  - destruct l as [|a l]; [discriminate|].
    rewrite chunks_step in H by (trivial; discriminate).
    cbn [nth_error] in H. apply IH in H. rewrite H, skipn_skipn.
    do 2 f_equal. lia.
Qed.

(** X4: Past the end the access raises [IndexError]: the arithmetic selects a
    record or a chain position that is not stored. *)
Theorem getitem_past_the_end_raises
    (x : list T) (m : DAE.Model T) (cor : list T -> list T)
    (n_walkback bs : Z) (d : DAE.device) (self : DAE.WalkbackDataset T)
    (i L : Z)
    (Hmodel : forall t, length (DAE.call m t) = length t)
    (Hcorrupt : forall t, length (cor t) = length t)
    (Hdepth : 0 <= n_walkback)
    (Hinit : DAE.__init__ x m cor n_walkback bs d = Ok self)
    (Hlen : DAE.len self = Ok L)
    (Hi : L <= i) :
  DAE.__getitem__ self i = Raise IndexError.
Proof.
  assert (Hx : x <> []).
  { intros ->. rewrite (len_empty_collection _ _ _ _ _ _ _ Hinit) in Hlen.
    discriminate. }
  pose proof (init_invariant T x m cor n_walkback bs d self Hmodel Hcorrupt
                Hx Hdepth Hinit) as Hinv.
  destruct (len_invariant T self Hinv) as (_ & _ & _ & _ & Hlen').
  rewrite Hlen' in Hlen.
  exact (getitem_beyond_len T self i L Hinv Hlen Hi).
Qed.

(** X5: When the batch size divides the number of samples, so that every batch
    is full, a negative index counts from the end as on a Python list:
    [dataset[i] = dataset[len + i]] for [-len <= i < 0], and an index
    below [-len] raises [IndexError].  The guard of the source plays no
    part in either. *)
Theorem negative_index_with_full_batches
    (x : list T) (m : DAE.Model T) (cor : list T -> list T)
    (n_walkback bs q : Z) (d : DAE.device) (self : DAE.WalkbackDataset T)
    (i : Z)
    (Hbs : 0 < bs) (Hdepth : 0 <= n_walkback) (Hq : 0 < q)
    (Hfull : Z.of_nat (length x) = q * bs)
    (Hinit : DAE.__init__ x m cor n_walkback bs d = Ok self)
    (Hi : i < 0) :
  let L := Z.of_nat (length x) * (2 + n_walkback) in
  DAE.len self = Ok L /\
  (- L <= i -> DAE.__getitem__ self i = DAE.__getitem__ self (i + L)) /\
  (i < - L -> DAE.__getitem__ self i = Raise IndexError).
Proof.
  intros L.
  rewrite init_ok in Hinit by trivial.
  apply (f_equal (fun r => match r with Ok a => a | Raise _ => self end)) in Hinit.
  set (f := fun b : list T =>
              (b, b :: DAE.chain (DAE.call m) cor b (2 + n_walkback - 1))) in *.
  destruct (chunks_exact T (Z.to_nat bs) ltac:(lia) x (Z.to_nat q))
    as [Hall Hcount]; [nia|].
  set (cs := chunks (Z.to_nat bs) x) in *.
  assert (Hne : cs <> []) by (intros E; rewrite E in Hcount; simpl in Hcount; lia).
  assert (Hlast : length (last cs []) = Z.to_nat bs).
  { rewrite Forall_forall in Hall. apply Hall.
    rewrite (app_removelast_last [] Hne) at 2. apply in_or_app. right. now left. }
  set (stride := bs * (2 + n_walkback)).
  assert (Hs : 0 < stride) by (unfold stride; nia).
  assert (HL : L = q * stride) by (unfold L, stride; nia).
  assert (Hdata : Z.of_nat (length (DAE.data self)) = q)
    by (subst self; cbn [DAE.data]; rewrite length_map; lia).
  assert (Hlen : DAE.len self = Ok L).
  { subst self. unfold DAE.len, DAE.__len__. cbn [DAE.data DAE.batch_size DAE.n].
    rewrite (app_removelast_last [] Hne), map_app. cbn [map].
    rewrite getitem_last. cbn [bind f fst]. rewrite Hlast.
    rewrite length_app, length_map. cbn [length].
    assert (Hrl : Z.of_nat (length (removelast cs)) = q - 1).
    { pose proof (f_equal (@length (list T)) (app_removelast_last [] Hne)) as E.
      rewrite length_app in E. cbn [length] in E. lia. }
    replace ((Z.of_nat (length (removelast cs) + 1) - 1) * bs * (2 + n_walkback)
             + (2 + n_walkback) * Z.of_nat (Z.to_nat bs)) with L
      by (rewrite HL; unfold stride; nia).
    destruct (Z.ltb_spec L 0); [nia | reflexivity]. }
  split; [exact Hlen|].
  assert (Hbsn : DAE.batch_size self * DAE.n self = stride)
    by (subst self; reflexivity).
  split.
  - intros Hlow. unfold DAE.__getitem__, Py.floordiv, Py.modulo.
    rewrite Hlen, Hbsn. cbn [bind].
    destruct (Z.gtb_spec 0 i); [|lia].
    destruct (Z.gtb_spec i L); [lia|].
    destruct (Z.gtb_spec 0 (i + L)); [lia|]. cbn [bind].
    destruct (Z.eqb_spec stride 0); [lia|]. cbn [bind].
    rewrite HL, Z.div_add, Z.mod_add by lia.
    rewrite (getitem_wrap _ (DAE.data self) (i / stride)).
    + now rewrite Hdata.
    + rewrite Hdata. split.
      * apply Z.div_le_lower_bound; lia.
      * apply Z.div_lt_upper_bound; lia.
  - intros Hlow. unfold DAE.__getitem__, Py.floordiv, Py.modulo.
    rewrite Hlen, Hbsn. cbn [bind].
    destruct (Z.gtb_spec 0 i); [|lia].
    destruct (Z.gtb_spec i L); [lia|]. cbn [bind].
    destruct (Z.eqb_spec stride 0); [lia|]. cbn [bind].
    rewrite getitem_below; [reflexivity|].
    rewrite Hdata. apply Z.div_lt_upper_bound; lia.
Qed.

(** [__getitem__] in terms of what the constructor was given: the record is
    the [b_index]-th run of [batch_size] samples, the first result is entry
    [e_index] of position [c_index] of that batch followed by its chain, the
    second is sample [b_index * batch_size + e_index] of the collection. *)
Lemma getitem_closed_form
    (x : list T) (m : DAE.Model T) (cor : list T -> list T)
    (n_walkback bs : Z) (d : DAE.device) (self : DAE.WalkbackDataset T)
    (i L : Z)
    (Hmodel : forall t, length (DAE.call m t) = length t)
    (Hcorrupt : forall t, length (cor t) = length t)
    (Hdepth : 0 <= n_walkback)
    (Hinit : DAE.__init__ x m cor n_walkback bs d = Ok self)
    (Hlen : DAE.len self = Ok L)
    (Hi : 0 <= i < L) :
  let stride := bs * (2 + n_walkback) in
  let b := Z.to_nat (i / stride) in
  let batch := firstn (Z.to_nat bs) (skipn (b * Z.to_nat bs) x) in
  let actual := Z.of_nat (length batch) in
  let c := Z.to_nat ((i mod stride) / actual) in
  let e := Z.to_nat ((i mod stride) mod actual) in
  let stored := batch :: DAE.chain (DAE.call m) cor batch (2 + n_walkback - 1) in
  exists c_tensor x_out y_out,
    DAE.__getitem__ self i = Ok (x_out, y_out) /\
    nth_error stored c = Some c_tensor /\
    nth_error c_tensor e = Some x_out /\
    nth_error batch e = Some y_out /\
    nth_error x (b * Z.to_nat bs + e)%nat = Some y_out.
Proof.
  intros stride b batch actual c e stored.
  assert (Hx : x <> []).
  { intros ->. rewrite (len_empty_collection _ _ _ _ _ _ _ Hinit) in Hlen.
    discriminate. }
  pose proof (init_invariant T x m cor n_walkback bs d self Hmodel Hcorrupt
                Hx Hdepth Hinit) as Hinv.
  destruct (len_invariant T self Hinv) as (_ & _ & _ & _ & Hlen').
  rewrite Hlen' in Hlen.
  destruct (getitem_enumerate_invariant T self i L Hinv Hlen Hi)
    as (y & ch & cv & xe & ye & Hrec & Hcv & Hxe & Hye & Hget & _).
  assert (Hbs : 0 < bs) by (destruct Hinv as [Hb _]; rewrite init_ok in Hinit;
    [ apply (f_equal (fun r => match r with Ok a => a | Raise _ => self end)) in Hinit;
      subst self; exact Hb
    | unfold DAE.__init__, DataLoader in Hinit;
      destruct (Z.leb_spec bs 0); [discriminate | trivial] ]).
  rewrite init_ok in Hinit by trivial.
  apply (f_equal (fun r => match r with Ok a => a | Raise _ => self end)) in Hinit.
  subst self. cbn [DAE.data DAE.batch_size DAE.n] in *.
  fold stride in Hrec, Hcv, Hxe, Hye. fold b in Hrec.
  rewrite nth_error_map in Hrec.
  destruct (nth_error (chunks (Z.to_nat bs) x) b) as [bt|] eqn:Eb;
    [|discriminate].
  cbn [option_map] in Hrec. injection Hrec as <- <-.
  apply chunks_nth in Eb; [|lia]. fold batch in Eb. subst bt.
  fold actual in Hcv, Hxe, Hye. fold c in Hcv. fold e in Hxe, Hye.
  exists cv, xe, ye. repeat split; trivial.
  unfold batch in Hye. rewrite nth_error_firstn in Hye.
  destruct (Nat.ltb_spec e (Z.to_nat bs)); [|discriminate].
  now rewrite nth_error_skipn in Hye.
Qed.

(** X6: The second result of a valid access is a sample of the base collection,
    the one at [b_index * batch_size + e_index]: targets are never
    corrupted, and the size of the batch is the minimum of [batch_size] and
    what remains of the collection. *)
Theorem getitem_target_is_base_sample
    (x : list T) (m : DAE.Model T) (cor : list T -> list T)
    (n_walkback bs : Z) (d : DAE.device) (self : DAE.WalkbackDataset T)
    (i L : Z)
    (Hmodel : forall t, length (DAE.call m t) = length t)
    (Hcorrupt : forall t, length (cor t) = length t)
    (Hdepth : 0 <= n_walkback)
    (Hinit : DAE.__init__ x m cor n_walkback bs d = Ok self)
    (Hlen : DAE.len self = Ok L)
    (Hi : 0 <= i < L) :
  let stride := bs * (2 + n_walkback) in
  let b_index := i / stride in
  let actual := Z.min bs (Z.of_nat (length x) - b_index * bs) in
  let e_index := (i mod stride) mod actual in
  exists x_out y_out,
    DAE.__getitem__ self i = Ok (x_out, y_out) /\
    nth_error x (Z.to_nat (b_index * bs + e_index)) = Some y_out.
Proof.
  intros stride b_index actual e_index.
  pose proof (getitem_closed_form x m cor n_walkback bs d self i L Hmodel
                Hcorrupt Hdepth Hinit Hlen Hi) as H.
  cbv zeta in H. fold stride in H.
  destruct H as (cv & xe & ye & Hget & _ & _ & Hb & Hy).
  exists xe, ye. split; [exact Hget|].
  assert (Hbs : 0 < bs).
  { unfold DAE.__init__, DataLoader in Hinit.
    destruct (Z.leb_spec bs 0); [discriminate | trivial]. }
  assert (Hs : 0 < stride).
  { unfold stride. nia. }
  assert (Hq : 0 <= b_index) by (apply Z.div_pos; lia).
  assert (Hact : Z.of_nat (length (firstn (Z.to_nat bs)
                    (skipn (Z.to_nat (i / stride) * Z.to_nat bs) x))) = actual).
  { assert (HB : Z.of_nat (Z.to_nat (i / stride) * Z.to_nat bs) = b_index * bs)
      by (rewrite Nat2Z.inj_mul, !Z2Nat.id; unfold b_index; lia).
    assert (Hnonempty : (0 < length (firstn (Z.to_nat bs)
              (skipn (Z.to_nat (i / stride) * Z.to_nat bs) x)))%nat)
      by (apply Nat.le_lt_trans with (2 := proj1 (nth_error_Some _ _)
            ltac:(rewrite Hb; discriminate)); lia).
    rewrite length_firstn, length_skipn in *. unfold actual. lia. }
  rewrite Hact in Hy.
  assert (He : 0 <= e_index).
  { assert (Hpos : 0 < actual).
    { assert (Hnonempty : (0 < length (firstn (Z.to_nat bs)
                (skipn (Z.to_nat (i / stride) * Z.to_nat bs) x)))%nat)
        by (apply Nat.le_lt_trans with (2 := proj1 (nth_error_Some _ _)
              ltac:(rewrite Hb; discriminate)); lia).
      lia. }
    apply Z.mod_pos_bound. lia. }
  rewrite <- Hy. f_equal. fold b_index. fold e_index.
  rewrite Z2Nat.inj_add, Z2Nat.inj_mul by nia. reflexivity.
Qed.

(** X7: The first result of a valid access is entry [e_index] of position
    [c_index] of the batch followed by its chain; at position [0] the access
    returns the same sample twice, the identity pair. *)
Theorem getitem_input_is_stored_chain_entry
    (x : list T) (m : DAE.Model T) (cor : list T -> list T)
    (n_walkback bs : Z) (d : DAE.device) (self : DAE.WalkbackDataset T)
    (i L : Z)
    (Hmodel : forall t, length (DAE.call m t) = length t)
    (Hcorrupt : forall t, length (cor t) = length t)
    (Hdepth : 0 <= n_walkback)
    (Hinit : DAE.__init__ x m cor n_walkback bs d = Ok self)
    (Hlen : DAE.len self = Ok L)
    (Hi : 0 <= i < L) :
  let stride := bs * (2 + n_walkback) in
  let b := Z.to_nat (i / stride) in
  let batch := firstn (Z.to_nat bs) (skipn (b * Z.to_nat bs) x) in
  let actual := Z.of_nat (length batch) in
  let c := Z.to_nat ((i mod stride) / actual) in
  let e := Z.to_nat ((i mod stride) mod actual) in
  exists c_tensor x_out y_out,
    DAE.__getitem__ self i = Ok (x_out, y_out) /\
    nth_error (batch :: DAE.chain (DAE.call m) cor batch (2 + n_walkback - 1)) c
    = Some c_tensor /\
    nth_error c_tensor e = Some x_out /\
    (c = 0%nat -> x_out = y_out).
Proof.
  intros stride b batch actual c e.
  pose proof (getitem_closed_form x m cor n_walkback bs d self i L Hmodel
                Hcorrupt Hdepth Hinit Hlen Hi) as H.
  cbv zeta in H. fold stride b batch actual c e in H.
  destruct H as (cv & xe & ye & Hget & Hc & Hx & Hy & _).
  exists cv, xe, ye. repeat split; trivial.
  intros Hc0. rewrite Hc0 in Hc. cbn [nth_error] in Hc. injection Hc as <-.
  congruence.
Qed.

End AccessFacts.

(** X4, witness: index 15 of the fifteen-pair dataset. *)
Lemma getitem_past_the_end_raises_witness :
  DAE.__getitem__ Examples.five_dataset 15 = Raise IndexError.
Proof.
  apply (getitem_past_the_end_raises Z Examples.five_samples
           Examples.double_model Examples.add_one 1 2 DAE.cpu
           Examples.five_dataset 15 15).
  - intros t. apply length_map.
  - intros t. apply length_map.
  - lia.
  - reflexivity.
  - reflexivity.
  - lia.
Defined.

(** X5, witness: index [-1] of the dataset of one full batch is its index 3. *)
Lemma negative_index_with_full_batches_witness :
  DAE.__getitem__ Examples.two_dataset (-1)
  = DAE.__getitem__ Examples.two_dataset 3.
Proof.
  destruct (negative_index_with_full_batches Z Examples.two_samples
              Examples.double_model Examples.add_one 0 2 1 DAE.cpu
              Examples.two_dataset (-1)) as (_ & H & _).
  - lia.
  - lia.
  - lia.
  - reflexivity.
  - reflexivity.
  - lia.
  - apply H. simpl. lia.
Defined.

(** X6, witness: index 10 of the five-sample scenario has the third sample as
    its target. *)
Lemma getitem_target_is_base_sample_witness :
  exists x_out y_out,
    DAE.__getitem__ Examples.five_dataset 10 = Ok (x_out, y_out) /\
    nth_error Examples.five_samples 2 = Some y_out.
Proof.
  apply (getitem_target_is_base_sample Z Examples.five_samples
           Examples.double_model Examples.add_one 1 2 DAE.cpu
           Examples.five_dataset 10 15).
  - intros t. apply length_map.
  - intros t. apply length_map.
  - lia.
  - reflexivity.
  - reflexivity.
  - lia.
Defined.

(** X7, witness: index 0 of the five-sample scenario is an identity pair. *)
Lemma getitem_input_is_stored_chain_entry_witness :
  exists x_out y_out,
    DAE.__getitem__ Examples.five_dataset 0 = Ok (x_out, y_out) /\
    x_out = y_out.
Proof.
  destruct (getitem_input_is_stored_chain_entry Z Examples.five_samples
              Examples.double_model Examples.add_one 1 2 DAE.cpu
              Examples.five_dataset 0 15)
    as (cv & xe & ye & Hget & _ & _ & Hid).
  - intros t. apply length_map.
  - intros t. apply length_map.
  - lia.
  - reflexivity.
  - reflexivity.
  - lia.
  - exists xe, ye. split; [exact Hget | apply Hid; reflexivity].
Defined.

(** ** More on the KL divergence *)

Section KLMoreFacts.

Import Sample.

Lemma Forall_slice (A : Type) (P : A -> Prop) (d k : nat) (l : list A) :
  Forall P l -> Forall P (firstn d (skipn k l)).
Proof.
  intros H. rewrite Forall_forall in *. intros a Ha. apply H.
  rewrite <- (firstn_skipn k l). apply in_or_app. right.
  rewrite <- (firstn_skipn d (skipn k l)). apply in_or_app. now left.
Qed.

Lemma slice_length (A : Type) (d k n : nat) (l : list A) :
  (k < n)%nat -> length l = (n * d)%nat ->
  length (firstn d (skipn (k * d) l)) = d.
Proof. intros Hk Hl. rewrite length_firstn, length_skipn. nia. Qed.

Lemma Rsum_ge_length (s : list R) :
  Forall (fun v => (1 <= v)%R) s -> (INR (length s) <= Rsum s)%R.
Proof.
  induction 1 as [|v s Hv _ IH]; [cbn; lra|].
  cbn [length Rsum fold_right]. fold (Rsum s). rewrite S_INR. lra.
Qed.

Lemma Rsum_map_plus_twice (A : Type) (f g : A -> R) (s : list A) :
  Rsum (map (fun a => (f a + 2 * g a)%R) s)
  = (Rsum (map f s) + 2 * Rsum (map g s))%R.
Proof.
  induction s as [|a s IH]; cbn [map Rsum fold_right]; [lra|].
  fold (Rsum (map (fun a => (f a + 2 * g a)%R) s)) (Rsum (map f s))
       (Rsum (map g s)).
  rewrite IH. lra.
Qed.

(** [sum(dim=-1)] written over the slices of the last axis. *)
Lemma sum_last_slices (shp : list Z) (dt : list R) :
  shp <> [] ->
  sum_last {| shape := shp; data := dt |}
  = {| shape := removelast shp;
       data := map (fun k => Rsum (firstn (Z.to_nat (last shp 1%Z))
                                     (skipn (k * Z.to_nat (last shp 1%Z)) dt)))
                   (seq 0 (Z.to_nat (numel_of (removelast shp)))) |}.
Proof.
  intros H. unfold sum_last, last_dim. cbn [shape data].
  destruct shp; [congruence | reflexivity].
Qed.

(** The entries of two tensors of one shape, as one list of pairs. *)
Lemma paired_entries (mu logvar : Tensor) :
  wf mu -> wf logvar -> shape logvar = shape mu -> shape mu <> [] ->
  let l := combine (data mu) (data logvar) in
  data mu = map fst l /\ data logvar = map snd l /\
  length l = (Z.to_nat (numel_of (removelast (shape mu)))
              * Z.to_nat (last (shape mu) 1%Z))%nat /\
  (0 <= last (shape mu) 1)%Z.
Proof.
  intros [Hnn Hlen] [_ Hlen'] Hshape Hrank l.
  unfold numel in *. rewrite Hshape in Hlen'.
  assert (Hl : length (data mu) = length (data logvar)) by lia.
  destruct (unzip_combine _ _ (data mu) (data logvar) Hl) as [Em El].
  destruct (nonneg_split (shape mu) Hrank Hnn) as [Hd Hlead].
  repeat split; trivial.
  unfold l. rewrite length_combine, <- Hl, Nat.min_id.
  rewrite (numel_split (shape mu) Hrank) in Hlen. nia.
Qed.

(** X8: Against the standard normal the divergence is never negative, on any
    leading index: every summand [mu^2 + exp(logvar) - logvar] is at least
    one. *)
Theorem kl_against_standard_normal_is_nonnegative
    (mu logvar : Tensor)
    (Hmu : wf mu) (Hlogvar : wf logvar)
    (Hshape : shape logvar = shape mu)
    (Hrank : shape mu <> []) :
  exists kl,
    kl_divergence mu logvar None None = Ok kl /\
    shape kl = removelast (shape mu) /\
    Forall (fun v => (0 <= v)%R) (data kl).
Proof.
  destruct (paired_entries mu logvar Hmu Hlogvar Hshape Hrank)
    as (Em & El & Hlen & Hd).
  set (l := combine (data mu) (data logvar)) in *.
  unfold kl_divergence, tmap. ew2_steps.
  rewrite getitem_minus_one by trivial. cbn [bind].
  rewrite sum_last_slices by trivial. cbn [shape data].
  eexists. split; [reflexivity|]. cbn [shape data]. split; [reflexivity|].
  rewrite Em, El. repeat (rewrite ?map_map, ?zip_map_map; cbn [fst snd]).
  apply Forall_map, Forall_forall. intros k Hk. apply in_seq in Hk.
  set (s := firstn _ _).
  assert (Hs : (INR (length s) <= Rsum s)%R).
  { apply Rsum_ge_length. unfold s. apply Forall_slice, Forall_map, Forall_forall.
    intros [m v] _. cbn [fst snd].
    pose proof (exp_ineq1_le v). pose proof (pow2_ge_0 m). lra. }
  unfold s in Hs at 1.
  rewrite slice_length with (n := Z.to_nat (numel_of (removelast (shape mu))))
    in Hs by (rewrite ?length_map; lia).
  rewrite INR_IZR_INZ, Z2Nat.id in Hs by trivial. lra.
Qed.

(** X9: Against a second Gaussian given as [mu2 = 0], [logvar2 = 0] the code
    does not return what it returns when the second Gaussian is left out,
    although both mean the standard normal: the result is larger by the
    sum of [logvar] over the last axis.  (The summand is
    [logvar1 - logvar2], where the formula of the docstring has the
    logarithm of [|Sigma_q| / |Sigma_p|].) *)
Theorem kl_against_explicit_standard_normal
    (mu logvar : Tensor)
    (Hmu : wf mu) (Hlogvar : wf logvar)
    (Hshape : shape logvar = shape mu)
    (Hrank : shape mu <> []) :
  let zeros := full (shape mu) 0 in
  exists explicit default,
    kl_divergence mu logvar (Some zeros) (Some zeros) = Ok explicit /\
    kl_divergence mu logvar None None = Ok default /\
    shape explicit = shape default /\
    data explicit
    = map (fun p : R * R => (fst p + snd p)%R)
          (combine (data default) (data (sum_last logvar))).
Proof.
  intros zeros.
  destruct (paired_entries mu logvar Hmu Hlogvar Hshape Hrank)
    as (Em & El & Hlen & Hd).
  set (l := combine (data mu) (data logvar)) in *.
  assert (Hz : data zeros = map (fun _ => 0%R) l).
  { unfold zeros, full. cbn [data]. rewrite map_const_repeat. f_equal.
    rewrite Hlen, (numel_split (shape mu) Hrank).
    destruct Hmu as [Hnn _].
    destruct (nonneg_split (shape mu) Hrank Hnn) as [_ Hlead]. nia. }
  assert (Hlv : sum_last logvar
                = sum_last {| shape := shape mu; data := map snd l |}).
  { rewrite <- El, <- Hshape. now destruct logvar. }
  rewrite Hlv.
  unfold kl_divergence, tmap.
  assert (Hzs : shape zeros = shape mu) by reflexivity.
  repeat (rewrite ew2_same_shape by (cbn [shape]; congruence);
          cbn [bind shape data]).
  rewrite getitem_minus_one by trivial. cbn [bind].
  rewrite ?Hshape, !sum_last_slices by trivial. cbn [shape data].
  eexists _, _. split; [reflexivity|]. split; [reflexivity|].
  cbn [shape data]. split; [reflexivity|].
  rewrite Hz, Em, El.
  repeat (rewrite ?map_map, ?zip_map_map; cbn [fst snd]).
  apply map_ext. intros k.
  rewrite !skipn_map, !firstn_map.
  set (s := firstn _ (skipn _ l)).
  rewrite map_ext
    with (g := fun a : R * R => ((fst a ^ 2 + exp (snd a) - snd a)
                                 + 2 * snd a)%R).
  - rewrite Rsum_map_plus_twice. lra.
  - intros [m v]. cbn [fst snd]. rewrite exp_0. field.
Qed.

End KLMoreFacts.

(** X8, witness: a batch of two Gaussians of dimension two. *)
Lemma kl_against_standard_normal_is_nonnegative_witness :
  exists kl,
    Sample.kl_divergence Examples.mu_2x2 Examples.logvar_2x2 None None = Ok kl /\
    Sample.shape kl = [2%Z] /\
    Forall (fun v => (0 <= v)%R) (Sample.data kl).
Proof.
  apply (kl_against_standard_normal_is_nonnegative
           Examples.mu_2x2 Examples.logvar_2x2).
  - split; [repeat constructor; lia | reflexivity].
  - split; [repeat constructor; lia | reflexivity].
  - reflexivity.
  - discriminate.
Defined.

(** X9, witness: the same batch against explicit zeros. *)
Lemma kl_against_explicit_standard_normal_witness :
  let zeros := Sample.full [2; 2]%Z 0 in
  exists explicit default,
    Sample.kl_divergence Examples.mu_2x2 Examples.logvar_2x2
                         (Some zeros) (Some zeros) = Ok explicit /\
    Sample.kl_divergence Examples.mu_2x2 Examples.logvar_2x2 None None
    = Ok default /\
    Sample.shape explicit = Sample.shape default /\
    Sample.data explicit
    = map (fun p : R * R => (fst p + snd p)%R)
          (combine (Sample.data default)
                   (Sample.data (Sample.sum_last Examples.logvar_2x2))).
Proof.
  apply (kl_against_explicit_standard_normal
           Examples.mu_2x2 Examples.logvar_2x2).
  - split; [repeat constructor; lia | reflexivity].
  - split; [repeat constructor; lia | reflexivity].
  - reflexivity.
  - discriminate.
Defined.

(** ** More on the diagonal Gaussian layer *)

Section GaussianMoreFacts.

Import Sample.

Local Open Scope Z_scope.

Lemma nth_error_zip (A B C : Type) (f : A * B -> C) (a : list A) (b : list B)
    (j : nat) (x : A) (y : B) :
  nth_error a j = Some x -> nth_error b j = Some y ->
  nth_error (map f (combine a b)) j = Some (f (x, y)).
Proof.
  revert b j. induction a as [|a0 a IH]; intros [|b0 b] [|j] Ha Hb;
    try discriminate; cbn in *.
  - congruence.
  - now apply IH.
Qed.

Lemma shape_eqb_neq (s1 s2 : list Z) : s1 <> s2 -> shape_eqb s1 s2 = false.
Proof.
  intros H. unfold shape_eqb.
  destruct (list_eq_dec Z.eq_dec s1 s2); [contradiction | reflexivity].
Qed.

Lemma reshape_rows_fails (t : Tensor) (d : Z) :
  d <= 0 \/ numel t mod d <> 0 -> reshape_rows t d = Raise RuntimeError.
Proof.
  intros H. unfold reshape_rows. destruct (Z.leb_spec d 0); [reflexivity|].
  destruct (Z.eqb_spec (numel t mod d) 0); [lia | reflexivity].
Qed.

(** X10: Entry [j] of the sample is [noise_j * exp(logvar_j / 2) + mu_j], [j]
    running over the entries in row-major order; the sample has the shape
    and the number of entries of [mu]. *)
Theorem dg_sample_is_reparameterised
    (self : DiagonalGuassian) (noise : nat -> R) (mu logvar : Tensor)
    (D k : Z) (j : nat) (m v : R)
    (Hlatent : dg_latent_shape self = [D]) (HD : 0 < D)
    (Hmu : wf mu) (Hlogvar : wf logvar)
    (Hshape : shape logvar = shape mu)
    (Hk : numel mu = k * D)
    (Hm : nth_error (data mu) j = Some m)
    (Hv : nth_error (data logvar) j = Some v) :
  exists sample mu_out logvar_out,
    dg_forward self noise mu logvar = Ok (sample, mu_out, logvar_out) /\
    shape sample = shape mu /\
    length (data sample) = length (data mu) /\
    nth_error (data sample) j = Some (noise j * exp (v / 2) + m)%R.
Proof.
  rewrite (dg_forward_ok self noise mu logvar D k) by trivial.
  eexists _, _, _. split; [reflexivity|]. cbn [shape data].
  split; [reflexivity|]. split.
  - destruct Hmu as [_ H1]. destruct Hlogvar as [_ H2].
    unfold numel in *. rewrite Hshape in H2.
    repeat rewrite ?length_map, ?length_combine, ?length_seq. lia.
  - rewrite nth_error_zip with (x := (noise j * exp (v / 2))%R) (y := m);
      [reflexivity | | exact Hm].
    rewrite nth_error_zip with (x := noise j) (y := exp (v / 2));
      [reflexivity | |].
    + rewrite nth_error_map, nth_error_seq.
      assert (j < length (data mu))%nat
        by (apply nth_error_Some; congruence).
      destruct (Nat.ltb_spec j (length (data mu))); [reflexivity | lia].
    + now rewrite nth_error_map, Hv.
Qed.

(** X11: [forward] refuses inputs of different shapes with [AssertionError]
    before anything else, and inputs of one shape whose number of entries
    the latent size does not divide with the [RuntimeError] of
    [reshape]. *)
Theorem dg_forward_rejects
    (self : DiagonalGuassian) (noise : nat -> R) (mu logvar : Tensor) (D : Z)
    (Hlatent : dg_latent_shape self = [D]) :
  (shape mu <> shape logvar ->
   dg_forward self noise mu logvar = Raise AssertionError) /\
  (shape mu = shape logvar -> D <= 0 \/ numel mu mod D <> 0 ->
   dg_forward self noise mu logvar = Raise RuntimeError).
Proof.
  unfold dg_forward. split.
  - intros H. now rewrite shape_eqb_neq.
  - intros H Hbad. rewrite H, shape_eqb_refl. cbn [negb].
    rewrite Hlatent, getitem_singleton. cbn [bind].
    now rewrite reshape_rows_fails.
Qed.

(** X12: When the input already has the shape [(N, D)], [mu] and [logvar] come
    back as they were given. *)
Theorem dg_forward_keeps_two_axis_parameters
    (self : DiagonalGuassian) (noise : nat -> R) (mu logvar : Tensor)
    (N D : Z)
    (Hlatent : dg_latent_shape self = [D]) (HD : 0 < D)
    (Hmu : shape mu = [N; D])
    (Hshape : shape logvar = shape mu) :
  exists sample,
    dg_forward self noise mu logvar = Ok (sample, mu, logvar) /\
    shape sample = shape mu.
Proof.
  assert (Emu : {| shape := [N; D]; data := data mu |} = mu)
    by (destruct mu; cbn [shape data] in *; congruence).
  assert (Elv : {| shape := [N; D]; data := data logvar |} = logvar)
    by (destruct logvar; cbn [shape data] in *; congruence).
  rewrite (dg_forward_ok self noise mu logvar D N); trivial.
  - rewrite Emu, Elv. eexists. split; reflexivity.
  - unfold numel. rewrite Hmu. cbn [numel_of fold_right]. lia.
Qed.

End GaussianMoreFacts.

(** X10, witness: entry 1 of a two-by-two input with constant noise one half. *)
Lemma dg_sample_is_reparameterised_witness :
  exists sample mu_out logvar_out,
    Sample.dg_forward {| Sample.dg_latent_shape := [2%Z] |} (fun _ => (1 / 2)%R)
                      Examples.mu_2x2 Examples.logvar_2x2
    = Ok (sample, mu_out, logvar_out) /\
    Sample.shape sample = [2; 2]%Z /\
    length (Sample.data sample) = 4%nat /\
    nth_error (Sample.data sample) 1 = Some (1 / 2 * exp (1 / 2) + 2)%R.
Proof.
  apply (dg_sample_is_reparameterised {| Sample.dg_latent_shape := [2%Z] |}
           (fun _ => (1 / 2)%R) Examples.mu_2x2 Examples.logvar_2x2 2 2 1 2 1).
  - reflexivity.
  - lia.
  - split; [repeat constructor; lia | reflexivity].
  - split; [repeat constructor; lia | reflexivity].
  - reflexivity.
  - reflexivity.
  - reflexivity.
  - reflexivity.
Defined.

(** X11, witness: shapes [(2, 2)] against [(1, 4)], and five entries against a
    latent size of two. *)
Lemma dg_forward_rejects_witness :
  Sample.dg_forward {| Sample.dg_latent_shape := [2%Z] |} (fun _ => 0%R)
                    Examples.mu_2x2 Examples.mu_1x4 = Raise AssertionError /\
  Sample.dg_forward {| Sample.dg_latent_shape := [2%Z] |} (fun _ => 0%R)
                    Examples.mu_5 Examples.mu_5 = Raise RuntimeError.
Proof.
  split.
  - apply (dg_forward_rejects {| Sample.dg_latent_shape := [2%Z] |}
             (fun _ => 0%R) Examples.mu_2x2 Examples.mu_1x4 2 eq_refl).
    discriminate.
  - apply (dg_forward_rejects {| Sample.dg_latent_shape := [2%Z] |}
             (fun _ => 0%R) Examples.mu_5 Examples.mu_5 2 eq_refl).
    + reflexivity.
    + right. discriminate.
Defined.

(** X12, witness: a two-by-two input with latent size two. *)
Lemma dg_forward_keeps_two_axis_parameters_witness :
  exists sample,
    Sample.dg_forward {| Sample.dg_latent_shape := [2%Z] |} (fun _ => 0%R)
                      Examples.mu_2x2 Examples.logvar_2x2
    = Ok (sample, Examples.mu_2x2, Examples.logvar_2x2) /\
    Sample.shape sample = [2; 2]%Z.
Proof.
  apply (dg_forward_keeps_two_axis_parameters
           {| Sample.dg_latent_shape := [2%Z] |} (fun _ => 0%R)
           Examples.mu_2x2 Examples.logvar_2x2 2 2).
  - reflexivity.
  - lia.
  - reflexivity.
  - reflexivity.
Defined.

(** ** More on the categorical straight-through layer *)

Section CategoricalMoreFacts.

Import Sample.

Variable ShapeArg : Type.
Variable as_shape : ShapeArg -> list Z.

Local Open Scope Z_scope.

Lemma Rsum_map_div (A : Type) (f : A -> R) (S : R) (row : list A) :
  Rsum (map (fun a => (f a / S)%R) row) = (Rsum (map f row) / S)%R.
Proof.
  induction row as [|a row IH]; cbn [map Rsum fold_right].
  - unfold Rdiv. now rewrite Rmult_0_l.
  - fold (Rsum (map (fun a => (f a / S)%R) row)) (Rsum (map f row)).
    rewrite IH. unfold Rdiv. now rewrite Rmult_plus_distr_r.
Qed.

Lemma softmax_row_sum (row : list R) :
  row <> [] -> Rsum (softmax_row row) = 1%R.
Proof.
  intros H. pose proof (Rsum_exp_pos row H) as Hpos.
  unfold softmax_row. rewrite Rsum_map_div. field. lra.
Qed.

Lemma softmax_row_pos (row : list R) :
  Forall (fun v => (0 < v)%R) (softmax_row row).
Proof.
  destruct row as [|v0 row0] eqn:E; [constructor|]. rewrite <- E.
  assert (Hpos : (0 < Rsum (map exp row))%R)
    by (apply Rsum_exp_pos; rewrite E; discriminate).
  unfold softmax_row. apply Forall_map, Forall_forall. intros v _.
  apply Rdiv_lt_0_compat; [apply exp_pos | exact Hpos].
Qed.

Lemma exp_normalise_row (row : list R) :
  row <> [] -> map exp (normalise_row row) = softmax_row row.
Proof.
  intros H. pose proof (Rsum_exp_pos row H) as Hpos.
  unfold normalise_row, softmax_row, logsumexp_row. rewrite map_map.
  apply map_ext. intros v.
  unfold Rminus. rewrite exp_plus, exp_Ropp, exp_ln by trivial. reflexivity.
Qed.

Lemma rows_nonempty (D : Z) (rs : list (list R)) :
  0 < D -> Forall (fun r => length r = Z.to_nat D) rs ->
  Forall (fun r => r <> []) rs.
Proof.
  intros HD H. eapply Forall_impl; [|exact H]. cbv beta.
  intros r Hr ->. cbn [length] in Hr. lia.
Qed.

Lemma cst_embedding_dim latent_shape normalise0 onehot weight self D :
  cst_init as_shape latent_shape normalise0 onehot weight = Ok self ->
  as_shape latent_shape = [D] ->
  cst_latent_shape self = [D] /\ embedding_dim_of (embed self) = D /\
  normalise self = normalise0.
Proof.
  intros Hinit Hlatent.
  destruct (cst_init_latent _ as_shape _ _ _ _ _ Hinit) as (d & Hd & ->).
  rewrite Hlatent in Hd. injection Hd as <-. cbn [cst_latent_shape embed normalise].
  repeat split. now destruct onehot.
Qed.

(** X13: The logits that [forward] returns beside the sample have the flattened
    shape [(N, D)], not the shape of the input; the sample has the shape of
    the input; without normalisation the returned logits hold the entries
    of the input unchanged. *)
Theorem cst_forward_returns_flattened_logits
    (latent_shape : ShapeArg) (onehot : bool) (weight : list (list R))
    (self : CategoricalStraightThrough) (draws : nat -> nat)
    (logits : Tensor) (k D : Z)
    (Hinit : cst_init as_shape latent_shape false onehot weight = Ok self)
    (Hlatent : as_shape latent_shape = [D])
    (Hwf : wf logits) (HD : 0 < D) (Hk : numel logits = k * D) :
  exists ret logits_used,
    cst_forward self draws logits = Ok (ret, logits_used) /\
    shape ret = shape logits /\
    shape logits_used = [k; D] /\
    data logits_used = data logits.
Proof.
  destruct (cst_embedding_dim _ _ _ _ _ _ Hinit Hlatent) as (Hls & Hdim & Hnorm).
  destruct (reshaped_rows logits k D Hwf HD Hk) as (_ & _ & Hcat & _).
  rewrite (cst_forward_ok self draws logits k D) by trivial.
  rewrite Hnorm. eexists _, _. split; [reflexivity|]. cbn [shape data].
  repeat split. exact Hcat.
Qed.

(** X14: With [normalise=True] the returned logits are log-probabilities: their
    exponentials are the probabilities the draw is made from. *)
Theorem cst_normalised_logits_are_log_probabilities
    (latent_shape : ShapeArg) (onehot : bool) (weight : list (list R))
    (self : CategoricalStraightThrough) (draws : nat -> nat)
    (logits : Tensor) (k D : Z)
    (Hinit : cst_init as_shape latent_shape true onehot weight = Ok self)
    (Hlatent : as_shape latent_shape = [D])
    (Hwf : wf logits) (HD : 0 < D) (Hk : numel logits = k * D) :
  exists ret logits_used probs,
    cst_forward self draws logits = Ok (ret, logits_used) /\
    cst_probs self logits = Ok probs /\
    shape logits_used = shape probs /\
    map exp (data logits_used) = data probs.
Proof.
  destruct (cst_embedding_dim _ _ _ _ _ _ Hinit Hlatent) as (Hls & Hdim & Hnorm).
  destruct (reshaped_rows logits k D Hwf HD Hk) as (Hrs & _ & _ & _).
  set (rs := chunks (Z.to_nat D) (data logits)) in *.
  assert (Hnrs : Forall (fun r => length r = Z.to_nat D) (map normalise_row rs))
    by (apply Forall_map_length; trivial; apply normalise_row_length).
  rewrite (cst_forward_ok self draws logits k D) by trivial.
  unfold cst_probs. rewrite (cst_logits_ok self logits k D) by trivial.
  rewrite Hnorm. fold rs. cbn [bind]. rewrite softmax_concat by trivial.
  eexists _, _, _. split; [reflexivity|]. split; [reflexivity|].
  cbn [shape data]. split; [reflexivity|].
  rewrite concat_map. f_equal. rewrite !map_map.
  apply map_ext_in. intros row Hrow.
  rewrite softmax_normalise_row. apply exp_normalise_row.
  pose proof (rows_nonempty D rs HD Hrs) as Hne.
  rewrite Forall_forall in Hne. now apply Hne.
Qed.

(** X15: The probabilities the draw is made from are a distribution on every
    row: positive entries that sum to one. *)
Theorem cst_probs_rows_are_distributions
    (latent_shape : ShapeArg) (normalise0 onehot : bool)
    (weight : list (list R)) (self : CategoricalStraightThrough)
    (logits : Tensor) (k D : Z)
    (Hinit : cst_init as_shape latent_shape normalise0 onehot weight = Ok self)
    (Hlatent : as_shape latent_shape = [D])
    (Hwf : wf logits) (HD : 0 < D) (Hk : numel logits = k * D) :
  exists probs,
    cst_probs self logits = Ok probs /\
    shape probs = [k; D] /\
    length (rows probs) = Z.to_nat k /\
    Forall (fun row => length row = Z.to_nat D /\ Rsum row = 1%R /\
                       Forall (fun v => (0 < v)%R) row)
           (rows probs).
Proof.
  destruct (cst_embedding_dim _ _ _ _ _ _ Hinit Hlatent) as (Hls & _ & _).
  destruct (reshaped_rows logits k D Hwf HD Hk) as (Hrs & Hlen & _ & _).
  set (rs := chunks (Z.to_nat D) (data logits)) in *.
  set (used := if normalise self then map normalise_row rs else rs).
  assert (Hused : Forall (fun r => length r = Z.to_nat D) used /\
                  length used = Z.to_nat k).
  { unfold used. destruct (normalise self); [|now split].
    split; [apply Forall_map_length; trivial; apply normalise_row_length|].
    now rewrite length_map. }
  destruct Hused as [Hused Hulen].
  unfold cst_probs. rewrite (cst_logits_ok self logits k D) by trivial.
  fold rs. fold used. cbn [bind]. rewrite softmax_concat by trivial.
  eexists. split; [reflexivity|]. cbn [shape]. split; [reflexivity|].
  rewrite rows_concat
    by (trivial; apply Forall_map_length; trivial; apply softmax_row_length).
  split; [now rewrite length_map|].
  apply Forall_map. eapply Forall_impl; [|exact Hused]. cbv beta.
  intros row Hrow. split; [now rewrite softmax_row_length|].
  split; [|apply softmax_row_pos].
  apply softmax_row_sum. intros ->. cbn [length] in Hrow. lia.
Qed.

(** X16: [forward] fails with the [RuntimeError] of [reshape] when the latent
    size is not positive or does not divide the number of entries of the
    input; nothing is drawn. *)
Theorem cst_forward_rejects
    (self : CategoricalStraightThrough) (draws : nat -> nat)
    (logits : Tensor) (D : Z)
    (Hlatent : cst_latent_shape self = [D])
    (Hbad : D <= 0 \/ numel logits mod D <> 0) :
  cst_forward self draws logits = Raise RuntimeError.
Proof.
  unfold cst_forward, cst_logits. rewrite Hlatent, getitem_singleton.
  cbn [bind]. now rewrite reshape_rows_fails.
Qed.

End CategoricalMoreFacts.

(** ** The Gumbel-softmax layer *)

Section GumbelFacts.

Import Sample.

Variable gumbel_softmax : Tensor -> R -> bool -> R -> Z -> Tensor.

Local Open Scope Z_scope.

(** X17: [forward] returns a tensor of the shape of the input whose entries are
    those of [F.gumbel_softmax] on the input flattened to two axes, provided
    [F.gumbel_softmax] keeps shapes, as torch's does. *)
Theorem gs_forward_keeps_shape
    (Hkeeps : forall t a h e d, shape (gumbel_softmax t a h e d) = shape t)
    (self : GumbelSoftmax) (logits : Tensor)
    (Hwf : wf logits)
    (Hrank : shape logits <> [])
    (Hlast : 0 < last (shape logits) 1) :
  let flat := {| shape := [numel_of (removelast (shape logits));
                           last (shape logits) 1];
                 data := data logits |} in
  let z := gumbel_softmax flat (tau self) (hard self) (eps self) (dim self) in
  gs_forward gumbel_softmax self logits
  = Ok {| shape := shape logits; data := data z |}.
Proof.
  intros flat z. unfold gs_forward.
  rewrite getitem_minus_one by trivial. cbn [bind].
  rewrite (reshape_rows_ok logits _ (numel_of (removelast (shape logits))))
    by (trivial; unfold numel; now apply numel_split).
  cbn [bind]. fold flat. fold z. unfold reshape. apply view_ok.
  unfold numel. unfold z. rewrite Hkeeps. unfold flat.
  cbn [shape numel_of fold_right]. rewrite (numel_split _ Hrank) at 1. lia.
Qed.

(** X18: [forward] fails on a tensor without axes ([IndexError] from
    [logits.shape[-1]]) and on a tensor whose last axis is empty
    ([RuntimeError] from [reshape(-1, 0)]). *)
Theorem gs_forward_rejects (self : GumbelSoftmax) (logits : Tensor) :
  (shape logits = [] ->
   gs_forward gumbel_softmax self logits = Raise IndexError) /\
  (shape logits <> [] -> last (shape logits) 1 <= 0 ->
   gs_forward gumbel_softmax self logits = Raise RuntimeError).
Proof.
  unfold gs_forward. split.
  - intros ->. reflexivity.
  - intros Hrank Hlast. rewrite getitem_minus_one by trivial. cbn [bind].
    rewrite reshape_rows_fails; [reflexivity | now left].
Qed.

End GumbelFacts.

(** X13, witness: an input of shape [(1, 6)] with latent size three comes back
    with logits of shape [(2, 3)]. *)
Lemma cst_forward_returns_flattened_logits_witness :
  exists ret logits_used,
    Sample.cst_forward (Examples.one_hot_layer false) (fun _ => 1%nat)
                       Examples.logits_1x6 = Ok (ret, logits_used) /\
    Sample.shape ret = [1; 6]%Z /\
    Sample.shape logits_used = [2; 3]%Z /\
    Sample.data logits_used = Sample.data Examples.logits_1x6.
Proof.
  apply (cst_forward_returns_flattened_logits _ Sample.as_shape_spec
           (Sample.ShapeInt 3) true [] (Examples.one_hot_layer false)
           (fun _ => 1%nat) Examples.logits_1x6 2 3).
  - reflexivity.
  - reflexivity.
  - split; [repeat constructor; lia | reflexivity].
  - lia.
  - reflexivity.
Defined.

(** X14, witness: two rows of three logits through a normalising layer. *)
Lemma cst_normalised_logits_are_log_probabilities_witness :
  exists ret logits_used probs,
    Sample.cst_forward (Examples.one_hot_layer true) (fun _ => 1%nat)
                       Examples.logits_2x3 = Ok (ret, logits_used) /\
    Sample.cst_probs (Examples.one_hot_layer true) Examples.logits_2x3
    = Ok probs /\
    Sample.shape logits_used = Sample.shape probs /\
    map exp (Sample.data logits_used) = Sample.data probs.
Proof.
  apply (cst_normalised_logits_are_log_probabilities _ Sample.as_shape_spec
           (Sample.ShapeInt 3) true [] (Examples.one_hot_layer true)
           (fun _ => 1%nat) Examples.logits_2x3 2 3).
  - reflexivity.
  - reflexivity.
  - split; [repeat constructor; lia | reflexivity].
  - lia.
  - reflexivity.
Defined.

(** X15, witness: the probabilities of two rows of three logits. *)
Lemma cst_probs_rows_are_distributions_witness :
  exists probs,
    Sample.cst_probs (Examples.one_hot_layer false) Examples.logits_2x3
    = Ok probs /\
    Sample.shape probs = [2; 3]%Z /\
    length (Sample.rows probs) = 2%nat /\
    Forall (fun row => length row = 3%nat /\ Sample.Rsum row = 1%R /\
                       Forall (fun v => (0 < v)%R) row)
           (Sample.rows probs).
Proof.
  apply (cst_probs_rows_are_distributions _ Sample.as_shape_spec
           (Sample.ShapeInt 3) false true [] (Examples.one_hot_layer false)
           Examples.logits_2x3 2 3).
  - reflexivity.
  - reflexivity.
  - split; [repeat constructor; lia | reflexivity].
  - lia.
  - reflexivity.
Defined.

(** X16, witness: five entries and a latent size of three. *)
Lemma cst_forward_rejects_witness :
  Sample.cst_forward (Examples.one_hot_layer false) (fun _ => 1%nat)
                     Examples.mu_5 = Raise RuntimeError.
Proof.
  apply (cst_forward_rejects (Examples.one_hot_layer false) (fun _ => 1%nat)
           Examples.mu_5 3).
  - reflexivity.
  - right. discriminate.
Defined.

(** X17, witness: two rows of three logits through a stand-in that keeps
    shapes. *)
Lemma gs_forward_keeps_shape_witness :
  exists z,
    Sample.gs_forward Examples.soft_only Examples.gumbel_layer
                      Examples.logits_2x3 = Ok z /\
    Sample.shape z = [2; 3]%Z.
Proof.
  eexists. split.
  - apply (gs_forward_keeps_shape Examples.soft_only).
    + intros t a h e d. reflexivity.
    + split; [repeat constructor; lia | reflexivity].
    + discriminate.
    + simpl. lia.
  - reflexivity.
Defined.

(** X18, witness: a tensor without axes and a tensor of shape [(2, 0)]. *)
Lemma gs_forward_rejects_witness :
  Sample.gs_forward Examples.soft_only Examples.gumbel_layer
                    Examples.scalar_tensor = Raise IndexError /\
  Sample.gs_forward Examples.soft_only Examples.gumbel_layer
                    Examples.empty_last_axis = Raise RuntimeError.
Proof.
  split.
  - apply (gs_forward_rejects Examples.soft_only Examples.gumbel_layer
             Examples.scalar_tensor). reflexivity.
  - apply (gs_forward_rejects Examples.soft_only Examples.gumbel_layer
             Examples.empty_last_axis).
    + discriminate.
    + simpl. lia.
Defined.
